(** * Smart-home controller: device-state merge and serial framing

    A shallow embedding of the device-state logic of the three application
    variants of the repository

      - [app_version_7_intensity.py]  (module [V7]),
      - [app_version_6_delay.py]      (module [V6]),
      - [merged_app.py]               (module [Merged]),

    together with the small part of the Python runtime they rely on
    (module [Py]): JSON-like values, insertion-ordered dictionaries,
    [int()], [str.rstrip], [str.strip] and [csv.writer.writerow].

    The language-model call and the output parser are outside the embedding:
    every function below starts from the already parsed document, that is
    from the value bound to [parsed_output] (respectively [parsed_data]).
    The functions accept any such dictionary, with or without the fields of
    the response schema; the concrete documents used in the examples carry
    all of them. *)

From Stdlib Require Import ZArith List String Ascii Bool Lia QArith.
Import ListNotations.

Local Open Scope string_scope.
Local Open Scope Z_scope.

(* ================================================================== *)
(** ** The Python runtime fragment *)
(* ================================================================== *)

Module Py.

(** *** Values

    A Python [str] is a sequence of code points.  The embedding keeps the
    code points below 256, one [ascii] per code point (so [ascii] 176 is the
    degree sign U+00B0 and [ascii] 194 is U+00C2).  Every string literal of
    the sources lies in that range. *)

Inductive pyfloat : Type :=
| Finite (q : Q)
| Infinite
| NotANumber.

#[warning="-register-all"]
Inductive value : Type :=
| VNone
| VBool (b : bool)
| VInt (n : Z)
| VFloat (f : pyfloat)
| VStr (s : string)
| VList (l : list value)
| VDict (d : list (string * value)).

(** A [dict] keeps its keys in insertion order; the documents come from
    JSON, so every key is a string. *)
Definition dict : Type := list (string * value).

(** Exceptions the modelled code can meet; all of them derive from
    [Exception]. *)
Inductive exn : Type :=
| ValueError
| TypeError
| KeyError
| OverflowError
| AttributeError.

Inductive result (A : Type) : Type :=
| Ok (a : A)
| Raise (e : exn).
Arguments Ok {A} a.
Arguments Raise {A} e.

Definition is_dict (v : value) : bool :=
  match v with VDict _ => true | _ => false end.

Definition is_str (v : value) : bool :=
  match v with VStr _ => true | _ => false end.

(** *** Dictionaries *)

(** [k in d] *)
Fixpoint dict_mem (k : string) (d : dict) : bool :=
  match d with
  | [] => false
  | (k', _) :: d' => if String.eqb k k' then true else dict_mem k d'
  end.

(** [d.get(k)], [None] when the key is absent *)
Fixpoint dict_get (k : string) (d : dict) : option value :=
  match d with
  | [] => None
  | (k', v) :: d' => if String.eqb k k' then Some v else dict_get k d'
  end.

(** [d.get(k, default)] *)
Definition dict_get_default (k : string) (default : value) (d : dict) : value :=
  match dict_get k d with
  | Some v => v
  | None => default
  end.

(** [d[k] = v]: an existing key keeps its position, a new key goes last. *)
Fixpoint dict_set (k : string) (v : value) (d : dict) : dict :=
  match d with
  | [] => [(k, v)]
  | (k', v') :: d' =>
      if String.eqb k k' then (k', v) :: d' else (k', v') :: dict_set k v d'
  end.

Definition dict_keys (d : dict) : list string := map fst d.

(** [x[k]] for a string key [k]: a dictionary looks the key up, every other
    value raises [TypeError] (string and list indices must be integers, the
    remaining types are not subscriptable). *)
Definition subscript (x : value) (k : string) : result value :=
  match x with
  | VDict d =>
      match dict_get k d with
      | Some v => Ok v
      | None => Raise KeyError
      end
  | _ => Raise TypeError
  end.

(** [x[k] = v] for a string key [k]; the result is the new content of the
    object [x]. *)
Definition set_subscript (x : value) (k : string) (v : value) : result value :=
  match x with
  | VDict d => Ok (VDict (dict_set k v d))
  | _ => Raise TypeError
  end.

(** *** Strings *)

Definition code (c : ascii) : Z := Z.of_N (N_of_ascii c).

Definition chr (n : N) : ascii := ascii_of_N n.

Definition char_in (c : ascii) (chars : list ascii) : bool :=
  existsb (Ascii.eqb c) chars.

(** Removal of the trailing characters that satisfy [p]. *)
Fixpoint rstrip_with (p : ascii -> bool) (s : string) : string :=
  match s with
  | EmptyString => EmptyString
  | String c s' =>
      match rstrip_with p s' with
      | EmptyString => if p c then EmptyString else String c EmptyString
      | r => String c r
      end
  end.

Fixpoint lstrip_with (p : ascii -> bool) (s : string) : string :=
  match s with
  | EmptyString => EmptyString
  | String c s' => if p c then lstrip_with p s' else s
  end.

(** Every character satisfies [p]. *)
Fixpoint all_chars (p : ascii -> bool) (s : string) : bool :=
  match s with
  | EmptyString => true
  | String c s' => p c && all_chars p s'
  end.

(** The last character, if any, does not satisfy [p]. *)
Fixpoint last_fails (p : ascii -> bool) (s : string) : bool :=
  match s with
  | EmptyString => true
  | String c EmptyString => negb (p c)
  | String _ s' => last_fails p s'
  end.

(** [s.rstrip(chars)] *)
Definition rstrip (chars : list ascii) (s : string) : string :=
  rstrip_with (fun c => char_in c chars) s.

(** White space of [str.strip()] among the code points below 256. *)
Definition is_space (c : ascii) : bool :=
  let n := code c in
  ((9 <=? n) && (n <=? 13)) || ((28 <=? n) && (n <=? 32))
  || (n =? 133) || (n =? 160).

(** [s.strip()] *)
Definition strip (s : string) : string :=
  rstrip_with is_space (lstrip_with is_space s).

(** *** [int()] *)

(** White space that [int()] skips around a literal: the ASCII white space
    and, among the other code points below 256, U+0085 and U+00A0. *)
Definition is_int_space (c : ascii) : bool :=
  let n := code c in
  ((9 <=? n) && (n <=? 13)) || (n =? 32) || (n =? 133) || (n =? 160).

Definition digit_of (c : ascii) : option Z :=
  let n := code c in
  if (48 <=? n) && (n <=? 57) then Some (n - 48) else None.

Definition underscore : ascii := chr 95.

(** The digits of a literal, read after a first digit: single underscores
    may separate digits.  Returns the value, the number of digits and the
    rest of the input. *)
Fixpoint scan_digits (s : string) (acc : Z) (ndigits : nat)
  : option (Z * nat * string) :=
  match s with
  | EmptyString => Some (acc, ndigits, EmptyString)
  | String c s' =>
      match digit_of c with
      | Some d => scan_digits s' (acc * 10 + d) (S ndigits)
      | None =>
          if Ascii.eqb c underscore then
            match s' with
            | EmptyString => None
            | String c' s'' =>
                match digit_of c' with
                | Some d => scan_digits s'' (acc * 10 + d) (S ndigits)
                | None => None
                end
            end
          else Some (acc, ndigits, s)
      end
  end.

(** Default limit of the interpreter on the number of digits of a decimal
    literal ([sys.int_info.default_max_str_digits]). *)
Definition max_str_digits : nat := 4300.

Definition scan_unsigned (s : string) : option Z :=
  match s with
  | EmptyString => None
  | String c s' =>
      match digit_of c with
      | None => None
      | Some d =>
          match scan_digits s' d 1 with
          | Some (n, ndigits, rest) =>
              match lstrip_with is_int_space rest with
              | EmptyString =>
                  if Nat.leb ndigits max_str_digits then Some n else None
              | _ => None
              end
          | None => None
          end
      end
  end.

(** [int(s)] for a string [s], base 10; [None] stands for [ValueError]. *)
Definition int_of_string (s : string) : option Z :=
  match lstrip_with is_int_space s with
  | EmptyString => None
  | String c s' =>
      if Ascii.eqb c (chr 45) then option_map Z.opp (scan_unsigned s')
      else if Ascii.eqb c (chr 43) then scan_unsigned s'
      else scan_unsigned (String c s')
  end.

(** Truncation of a rational towards zero. *)
Definition trunc (q : Q) : Z := Z.quot (Qnum q) (Zpos (Qden q)).

(** [int(v)] *)
Definition int (v : value) : result Z :=
  match v with
  | VInt n => Ok n
  | VBool b => Ok (if b then 1 else 0)
  | VFloat (Finite q) => Ok (trunc q)
  | VFloat Infinite => Raise OverflowError
  | VFloat NotANumber => Raise ValueError
  | VStr s =>
      match int_of_string s with
      | Some n => Ok n
      | None => Raise ValueError
      end
  | VNone | VList _ | VDict _ => Raise TypeError
  end.

(** *** [str()] *)

Definition digit_char (d : Z) : ascii := chr (Z.to_N (48 + d)).

(** Decimal digits of a non-negative number, most significant first; the
    fuel bounds the number of digits. *)
Fixpoint digits_fuel (fuel : nat) (n : Z) (acc : string) : string :=
  match fuel with
  | O => acc
  | S fuel' =>
      let acc' := String (digit_char (n mod 10)) acc in
      if n <? 10 then acc' else digits_fuel fuel' (n / 10) acc'
  end.

(** [str(n)] for an integer [n]. *)
Definition string_of_int (n : Z) : string :=
  let m := Z.abs n in
  let ds := digits_fuel (S (Z.to_nat (Z.log2 m))) m EmptyString in
  if n <? 0 then String (chr 45) ds else ds.

(** [str(v)].  The text of a float, a list or a dictionary is not
    modelled ([None]); none of them is ever a decimal integer literal. *)
Definition str (v : value) : option string :=
  match v with
  | VStr s => Some s
  | VInt n => Some (string_of_int n)
  | VBool b => Some (if b then "True" else "False")
  | VNone => Some "None"
  | VFloat _ | VList _ | VDict _ => None
  end.

End Py.

(* ================================================================== *)
(** ** The controller state and its small state-and-exception monad *)
(* ================================================================== *)

Module Ctl.
Import Py.

(** What the code hands to [logging.error]. *)
Inductive log_entry : Type :=
| InvalidIntensity (v : value)      (* "Invalid intensity value: ..." *)
| InvalidServoAngle (v : value)     (* "Invalid servo angle value: ..." *)
| CommandParsingError (e : exn)     (* "Command parsing error: ..." *)
| InvalidJSONResponse.              (* "Invalid JSON response" *)

(** The part of a [SmartHomeController] the merge and the sender touch:
    the attribute [device_states] and the error log. *)
Record controller : Type := mkController {
  device_states : dict;
  log : list log_entry
}.

(** A computation on the controller: it returns or raises, and in both
    cases the mutations made so far stay. *)
Definition M (A : Type) : Type := controller -> result A * controller.

Definition ret {A} (a : A) : M A := fun c => (Ok a, c).

Definition bind {A B} (m : M A) (k : A -> M B) : M B :=
  fun c =>
    match m c with
    | (Ok a, c') => k a c'
    | (Raise e, c') => (Raise e, c')
    end.

Definition lift {A} (r : result A) : M A := fun c => (r, c).

Definition raise {A} (e : exn) : M A := lift (Raise e).

(** [try: body  except <handled>: handler] *)
Definition try_except {A} (body : M A) (handled : exn -> bool)
    (handler : exn -> M A) : M A :=
  fun c =>
    match body c with
    | (Ok a, c') => (Ok a, c')
    | (Raise e, c') => if handled e then handler e c' else (Raise e, c')
    end.

(** [for k, v in items: body(k, v)] *)
Fixpoint for_each (items : dict) (body : string -> value -> M unit) : M unit :=
  match items with
  | [] => ret tt
  | (k, v) :: rest => bind (body k v) (fun _ => for_each rest body)
  end.

Definition logging_error (e : log_entry) : M unit :=
  fun c => (Ok tt, mkController (device_states c) (log c ++ [e])).

(** [device in self.device_states] *)
Definition has_device (device : string) : M bool :=
  fun c => (Ok (dict_mem device (device_states c)), c).

(** [self.device_states[device]] *)
Definition get_device (device : string) : M value :=
  fun c =>
    match dict_get device (device_states c) with
    | Some v => (Ok v, c)
    | None => (Raise KeyError, c)
    end.

(** [self.device_states[device] = v] *)
Definition set_device (device : string) (v : value) : M unit :=
  fun c => (Ok tt, mkController (dict_set device v (device_states c)) (log c)).

(** [self.device_states[device][field]] *)
Definition get_field (device field : string) : M value :=
  bind (get_device device) (fun x => lift (subscript x field)).

(** [self.device_states[device][field] = v]: the object stored under
    [device] is fetched and mutated in place. *)
Definition set_field (device field : string) (v : value) : M unit :=
  bind (get_device device) (fun x =>
  bind (lift (set_subscript x field v)) (fun x' =>
  set_device device x')).

(** [v.items()]: only a dictionary has the method. *)
Definition items (v : value) : M dict :=
  match v with
  | VDict d => ret d
  | _ => raise AttributeError
  end.

Definition is_value_or_type_error (e : exn) : bool :=
  match e with
  | ValueError | TypeError => true
  | _ => false
  end.

(** [m] keeps the property [Q] of the device table, whether it returns or
    raises. *)
Definition preserves {A} (Q : dict -> Prop) (m : M A) : Prop :=
  forall c, Q (device_states c) -> Q (device_states (snd (m c))).

Module Notations.
Notation "x <- m ;; k" := (bind m (fun x => k))
  (at level 61, m at next level, right associativity).
Notation "m ;;; k" := (bind m (fun _ => k))
  (at level 61, right associativity).
End Notations.

End Ctl.

(* ================================================================== *)
(** ** csv.writer with the default dialect *)
(* ================================================================== *)

Module Csv.
Import Py.

Definition delimiter : ascii := chr 44.
Definition quotechar : ascii := chr 34.
Definition lineterminator : string := String (chr 13) (String (chr 10) EmptyString).

(** Characters that force quoting under [QUOTE_MINIMAL]: the delimiter, the
    quote character and the characters of the line terminator. *)
Definition is_special (c : ascii) : bool :=
  Ascii.eqb c delimiter || Ascii.eqb c quotechar
  || Ascii.eqb c (chr 13) || Ascii.eqb c (chr 10).

Fixpoint needs_quotes (s : string) : bool :=
  match s with
  | EmptyString => false
  | String c s' => is_special c || needs_quotes s'
  end.

(** [doublequote=True]: a quote character inside a field is written twice. *)
Fixpoint double_quotes (s : string) : string :=
  match s with
  | EmptyString => EmptyString
  | String c s' =>
      if Ascii.eqb c quotechar then String c (String c (double_quotes s'))
      else String c (double_quotes s')
  end.

Definition write_field (s : string) : string :=
  if needs_quotes s
  then String quotechar (double_quotes s ++ String quotechar EmptyString)
  else s.

Fixpoint join_fields (fields : list string) : string :=
  match fields with
  | [] => EmptyString
  | [f] => write_field f
  | f :: rest => write_field f ++ String delimiter (join_fields rest)
  end.

(** Text of one field: a string as it is, [None] as the empty string, any
    other object through [str()] (not modelled for a float, a list or a
    dictionary). *)
Definition field_text (v : value) : option string :=
  match v with
  | VNone => Some EmptyString
  | _ => str v
  end.

Fixpoint field_texts (row : list value) : option (list string) :=
  match row with
  | [] => Some []
  | v :: rest =>
      match field_text v, field_texts rest with
      | Some s, Some ss => Some (s :: ss)
      | _, _ => None
      end
  end.

(** What [writerow(row)] appends to the output; a row made of a single
    empty field is written as a pair of quotes. *)
Definition writerow_text (fields : list string) : string :=
  match fields with
  | [EmptyString] => String quotechar (String quotechar lineterminator)
  | _ => join_fields fields ++ lineterminator
  end.

Definition writerow (row : list value) : option string :=
  option_map writerow_text (field_texts row).

End Csv.

(* ================================================================== *)
(** ** Sending: the frame of one device *)
(* ================================================================== *)

Module Frame.
Import Py.

(** Outcome of the loop body of [send_device_states] for one device. *)
Inductive outcome : Type :=
| Sent (message : string)     (* the text handed to [self.ser.write] *)
| Failed (e : exn)            (* an exception left the loop body *)
| NotModelled.                (* a field whose [str()] is not modelled *)

(** [message = f"START{output.getvalue().strip()}END\n"] *)
Definition message_of (output : string) : string :=
  "START" ++ strip output ++ "END" ++ String (chr 10) EmptyString.

Definition send_row (row : list value) : outcome :=
  match Csv.writerow row with
  | Some output => Sent (message_of output)
  | None => NotModelled
  end.

End Frame.

(* ================================================================== *)
(** ** app_version_7_intensity.py *)
(* ================================================================== *)

Module V7.
Import Py Ctl Ctl.Notations.

(** [SmartHomeController.__init__]: the initial device table. *)
Definition initial_device_states : dict :=
  [ ("room 1 light", VStr "off");
    ("room 2 light", VDict [("state", VStr "off"); ("intensity", VInt 0)]);
    ("room 3 light", VDict [("state", VStr "off"); ("intensity", VInt 0)]);
    ("room 4 light", VStr "off");
    ("kitchen light", VStr "off");
    ("TV", VStr "off");
    ("Refrigerator", VStr "off");
    ("DC motor", VStr "off");
    ("Servo motor", VDict [("direction", VStr "none"); ("degrees", VInt 0)]) ].

Definition init : controller := mkController initial_device_states [].

(** [device in ["room 2 light", "room 3 light"]] *)
Definition is_dimmable (device : string) : bool :=
  String.eqb device "room 2 light" || String.eqb device "room 3 light".

(** [device == "Servo motor"] *)
Definition is_servo (device : string) : bool :=
  String.eqb device "Servo motor".

(** Body of the first loop of [parse_command]
    ([for device, state in device_states.items()]). *)
Definition update_device (device : string) (state : value) : M unit :=
  known <- has_device device ;;
  if known then
    if is_dimmable device then
      cur <- get_device device ;;
      if is_dict cur then
        match state with
        | VDict st =>
            old_state <- get_field device "state" ;;
            set_field device "state" (dict_get_default "state" old_state st) ;;;
            old_intensity <- get_field device "intensity" ;;
            set_field device "intensity"
              (dict_get_default "intensity" old_intensity st)
        | _ => set_field device "state" state
        end
      else ret tt
    else if is_servo device then
      match state with
      | VDict st =>
          old_direction <- get_field device "direction" ;;
          set_field device "direction"
            (dict_get_default "direction" old_direction st) ;;;
          old_degrees <- get_field device "degrees" ;;
          set_field device "degrees" (dict_get_default "degrees" old_degrees st)
      | _ => ret tt
      end
    else set_device device state
  else ret tt.

(** [intensity.rstrip('%')] when [intensity] is a string. *)
Definition strip_percent (intensity : value) : value :=
  match intensity with
  | VStr s => VStr (rstrip [chr 37] s)
  | v => v
  end.

(** Body of the second loop of [parse_command]
    ([for light, intensity in light_intensity.items()]). *)
Definition update_intensity (light : string) (intensity : value) : M unit :=
  if is_dimmable light then
    let intensity := strip_percent intensity in
    try_except
      (n <- lift (int intensity) ;;
       set_field light "intensity" (VInt n) ;;;
       n' <- lift (int intensity) ;;
       if n' >? 0 then set_field light "state" (VStr "on")
       else set_field light "state" (VStr "off"))
      is_value_or_type_error
      (fun _ => logging_error (InvalidIntensity intensity))
  else ret tt.

(** The two characters of the argument of [rstrip] in
    [str(servo_motor_angle).rstrip(...)]: U+00C2 and U+00B0. *)
Definition angle_suffix_chars : list ascii := [chr 194; chr 176].

(** [int(str(servo_motor_angle).rstrip(...))].  The text of a float, a list
    or a dictionary is never an integer literal, so [int] raises
    [ValueError] on it. *)
Definition servo_angle_int (servo_motor_angle : value) : result Z :=
  match str servo_motor_angle with
  | Some s => int (VStr (rstrip angle_suffix_chars s))
  | None => Raise ValueError
  end.

(** [if servo_motor_angle is not None: try: ... except ...] *)
Definition update_servo_angle (servo_motor_angle : value) : M unit :=
  match servo_motor_angle with
  | VNone => ret tt
  | _ =>
      try_except
        (n <- lift (servo_angle_int servo_motor_angle) ;;
         set_field "Servo motor" "degrees" (VInt n))
        is_value_or_type_error
        (fun _ => logging_error (InvalidServoAngle servo_motor_angle))
  end.

(** [if servo_motor_direction is not None: ...] *)
Definition update_servo_direction (servo_motor_direction : value) : M unit :=
  match servo_motor_direction with
  | VNone => ret tt
  | _ => set_field "Servo motor" "direction" servo_motor_direction
  end.

(** The dictionary [parse_command] returns on success. *)
Record parsed_result : Type := mkResult {
  result_device_states : dict;
  chatbot_message : value;
  delay_seconds : Z
}.

(** The statements of [parse_command] that update the device table: from
    the four [parsed_output.get] up to the servo direction. *)
Definition merge (parsed_output : dict) : M unit :=
  let device_states := dict_get_default "device_states" (VDict []) parsed_output in
  let light_intensity := dict_get_default "light_intensity" (VDict []) parsed_output in
  let servo_motor_angle := dict_get_default "servo_motor_angle" VNone parsed_output in
  let servo_motor_direction :=
    dict_get_default "servo_motor_direction" VNone parsed_output in
  ds <- items device_states ;;
  for_each ds update_device ;;;
  li <- items light_intensity ;;
  for_each li update_intensity ;;;
  update_servo_angle servo_motor_angle ;;;
  update_servo_direction servo_motor_direction.

(** The [return {...}] of [parse_command]. *)
Definition build_result (parsed_output : dict) : M parsed_result :=
  fun c =>
    let message :=
      dict_get_default "chatbot_message" (VStr "Command processed") parsed_output in
    match int (dict_get_default "delay_seconds" (VInt 0) parsed_output) with
    | Ok d => (Ok (mkResult (Ctl.device_states c) message d), c)
    | Raise e => (Raise e, c)
    end.

(** Body of the [try] of [parse_command], after the output parser. *)
Definition parse_command_body (parsed_output : dict) : M parsed_result :=
  merge parsed_output ;;; build_result parsed_output.

(** [parse_command], from the parsed document on: [except Exception] logs
    and returns [None]. *)
Definition parse_command (parsed_output : dict) (c : controller)
  : option parsed_result * controller :=
  match parse_command_body parsed_output c with
  | (Ok r, c') => (Some r, c')
  | (Raise e, c') =>
      (None, mkController (Ctl.device_states c') (log c' ++ [CommandParsingError e]))
  end.

(** The store after a sequence of documents, each handled by
    [parse_command]. *)
Fixpoint run_commands (docs : list dict) (c : controller) : controller :=
  match docs with
  | [] => c
  | doc :: rest => run_commands rest (snd (parse_command doc c))
  end.

(** Loop body of [send_device_states]: the row written for one device and
    the message built from it.  A dictionary stored under a name that is
    neither a dimmable light nor the servo writes no row, so the output
    buffer stays empty. *)
Definition encode (dev : string) (state : value) : Frame.outcome :=
  match state with
  | VDict _ =>
      if is_dimmable dev then
        match subscript state "state", subscript state "intensity" with
        | Ok s, Ok i => Frame.send_row [VStr dev; s; i]
        | Raise e, _ => Frame.Failed e
        | _, Raise e => Frame.Failed e
        end
      else if is_servo dev then
        match subscript state "direction", subscript state "degrees" with
        | Ok d, Ok g => Frame.send_row [VStr dev; d; g]
        | Raise e, _ => Frame.Failed e
        | _, Raise e => Frame.Failed e
        end
      else Frame.Sent (Frame.message_of EmptyString)
  | _ => Frame.send_row [VStr dev; state]
  end.

(** [send_device_states] on an open port: the messages written, in the
    order of the table, and the returned flag; the first exception stops
    the loop.  [None] when a field is outside the model of [str()]. *)
Fixpoint send_device_states (table : dict) : option (list string * bool) :=
  match table with
  | [] => Some ([], true)
  | (dev, state) :: rest =>
      match encode dev state with
      | Frame.Sent m =>
          match send_device_states rest with
          | Some (ms, ok) => Some (m :: ms, ok)
          | None => None
          end
      | Frame.Failed _ => Some ([], false)
      | Frame.NotModelled => None
      end
  end.

(** How the [/voice-command] handler starts the sender. *)
Inductive dispatch : Type :=
| Immediate
| Deferred (seconds : Z).

Inductive status : Type :=
| Success
| Error.

(** [receive_voice_command] for a non-empty command whose parsed document
    is [parsed_output]. *)
Definition receive_voice_command (parsed_output : dict) (c : controller)
  : status * option dispatch * controller :=
  match parse_command parsed_output c with
  | (Some r, c') =>
      (Success,
       Some (if delay_seconds r >? 0 then Deferred (delay_seconds r) else Immediate),
       c')
  | (None, c') => (Error, None, c')
  end.

(** [receive_direct_command] for a request body that is a JSON object: an
    empty body is refused, any other one replaces the whole table. *)
Definition receive_direct_command (new_states : dict) (c : controller)
  : status * controller :=
  match new_states with
  | [] => (Error, c)
  | _ => (Success, mkController new_states (log c))
  end.

End V7.

(* ================================================================== *)
(** ** app_version_6_delay.py *)
(* ================================================================== *)

Module V6.
Import Py Ctl Ctl.Notations.

Definition initial_device_states : dict :=
  [ ("room 1 light", VStr "off");
    ("room 2 light", VStr "off");
    ("room 3 light", VStr "off");
    ("kitchen light", VStr "off");
    ("room 1 fan", VStr "off");
    ("room 2 fan", VStr "off");
    ("room 3 fan", VStr "off");
    ("kitchen fan", VStr "off") ].

Definition init : controller := mkController initial_device_states [].

(** Body of the loop of [parse_command]. *)
Definition update_device (device : string) (state : value) : M unit :=
  known <- has_device device ;;
  if known then set_device device state else ret tt.

(** The dictionary [parse_command] returns: the [device_states] of the
    document, the message and the delay as it came. *)
Record parsed_result : Type := mkResult {
  result_device_states : value;
  chatbot_message : value;
  delay_seconds : value
}.

Definition parse_command_body (parsed_output : dict) : M parsed_result :=
  let device_states := dict_get_default "device_states" (VDict []) parsed_output in
  ds <- items device_states ;;
  for_each ds update_device ;;;
  let delay := dict_get_default "delay_seconds" (VInt 0) parsed_output in
  ret (mkResult device_states
         (dict_get_default "chatbot_message" (VStr "Command processed") parsed_output)
         delay).

Definition parse_command (parsed_output : dict) (c : controller)
  : option parsed_result * controller :=
  match parse_command_body parsed_output c with
  | (Ok r, c') => (Some r, c')
  | (Raise e, c') =>
      (None, mkController (Ctl.device_states c') (log c' ++ [CommandParsingError e]))
  end.

Inductive dispatch : Type :=
| Immediate
| Deferred (seconds : Z).

(** What [receive_voice_command] does for a non-empty command: a response
    with or without a started sender, or an exception that leaves the
    handler ([int(parsed_result.get("delay_seconds", 0))] is not inside a
    [try]). *)
Inductive handled : Type :=
| Responded (ok : bool) (started : option dispatch)
| Escaped (e : exn).

Definition receive_voice_command (parsed_output : dict) (c : controller)
  : handled * controller :=
  match parse_command parsed_output c with
  | (Some r, c') =>
      match int (delay_seconds r) with
      | Ok d => (Responded true (Some (if d >? 0 then Deferred d else Immediate)), c')
      | Raise e => (Escaped e, c')
      end
  | (None, c') => (Responded false None, c')
  end.

(** Loop body of [send_device_states]. *)
Definition encode (dev : string) (dev_state : value) : Frame.outcome :=
  Frame.send_row [VStr dev; dev_state].

(** [send_device_states] on an open port: the messages written, in the
    order of the table, and the returned flag.  [None] when a field is
    outside the model of [str()]. *)
Fixpoint send_device_states (table : dict) : option (list string * bool) :=
  match table with
  | [] => Some ([], true)
  | (dev, dev_state) :: rest =>
      match encode dev dev_state with
      | Frame.Sent m =>
          match send_device_states rest with
          | Some (ms, ok) => Some (m :: ms, ok)
          | None => None
          end
      | Frame.Failed _ => Some ([], false)
      | Frame.NotModelled => None
      end
  end.

End V6.

(* ================================================================== *)
(** ** merged_app.py *)
(* ================================================================== *)

Module Merged.
Import Py Ctl Ctl.Notations.

Definition initial_device_states : dict := V6.initial_device_states.

Definition init : controller := mkController initial_device_states [].

(** Body of the loop of [parse_json_response]. *)
Definition update_device (device : string) (state : value) : M unit :=
  known <- has_device device ;;
  if known && negb (String.eqb device "chatbot message")
  then set_device device state
  else ret tt.

(** [parse_json_response] after [json.loads]: [parsed_data] is the decoded
    value. *)
Definition parse_json_response (parsed_data : value) : M value :=
  ds <- items parsed_data ;;
  for_each ds update_device ;;;
  ret parsed_data.

(** [parse_command] from the decoded response on. *)
Definition parse_command (parsed_data : value) (c : controller)
  : option value * controller :=
  match parse_json_response parsed_data c with
  | (Ok r, c') => (Some r, c')
  | (Raise e, c') =>
      (None, mkController (Ctl.device_states c') (log c' ++ [CommandParsingError e]))
  end.

(** Loop body of [send_device_states]. *)
Definition encode (dev : string) (dev_state : value) : Frame.outcome :=
  Frame.send_row [VStr dev; dev_state].

(** [send_device_states] on an open port, as in app_version_6_delay.py. *)
Definition send_device_states (table : dict) : option (list string * bool) :=
  V6.send_device_states table.

(** Truth value of an object, as [if parsed_result:] tests it. *)
Definition truthy (v : value) : bool :=
  match v with
  | VNone => false
  | VBool b => b
  | VInt n => negb (n =? 0)
  | VFloat (Finite q) => negb (Qeq_bool q 0)
  | VFloat _ => true
  | VStr s => negb (String.eqb s EmptyString)
  | VList l => match l with [] => false | _ => true end
  | VDict d => match d with [] => false | _ => true end
  end.

(** What [receive_voice_command] answers for a non-empty command whose
    decoded response is [parsed_data]: the status, the message, and what
    the synchronous call of [send_device_states] wrote when it was made. *)
Inductive answer : Type :=
| Answered (ok : bool) (message : value) (sent : option (option (list string * bool)))
| Escaped (e : exn).

Definition receive_voice_command (parsed_data : value) (c : controller)
  : answer * controller :=
  match parse_command parsed_data c with
  | (Some parsed_result, c') =>
      if truthy parsed_result then
        match parsed_result with
        | VDict d =>
            (Answered true
               (dict_get_default "chatbot message" (VStr "Command processed") d)
               (Some (send_device_states (Ctl.device_states c'))),
             c')
        | _ => (Escaped AttributeError, c')
        end
      else (Answered false (VStr "Unable to parse command") None, c')
  | (None, c') => (Answered false (VStr "Unable to parse command") None, c')
  end.

End Merged.

(* ================================================================== *)
(** ** Properties of the device table used in the statements *)
(* ================================================================== *)

Module Table.
Import Py Ctl.

(** Every entry of a table satisfies [p]. *)
Definition table_all (p : string -> value -> bool) (d : dict) : bool :=
  forallb (fun kv => p (fst kv) (snd kv)) d.

(** A dictionary with the two given keys. *)
Definition has_fields (f1 f2 : string) (v : value) : bool :=
  match v with
  | VDict d => dict_mem f1 d && dict_mem f2 d
  | _ => false
  end.

(** Shape of the entries of [app_version_7_intensity.py]: a dimmable light
    holds a record with [state] and [intensity], the servo a record with
    [direction] and [degrees]. *)
Definition entry_shape (dev : string) (v : value) : bool :=
  if V7.is_dimmable dev then has_fields "state" "intensity" v
  else if V7.is_servo dev then has_fields "direction" "degrees" v
  else true.

Definition shape_ok (d : dict) : bool := table_all entry_shape d.

Definition is_on (v : value) : bool :=
  match v with
  | VStr s => String.eqb s "on"
  | _ => false
  end.

Definition is_direction (v : value) : bool :=
  match v with
  | VStr s => String.eqb s "clock" || String.eqb s "anti" || String.eqb s "none"
  | _ => false
  end.

Definition in_degrees_range (v : value) : bool :=
  match v with
  | VInt g => (0 <=? g) && (g <=? 180)
  | _ => false
  end.

(** The state invariant of a dimmable entry: an integer intensity that is
    positive exactly when the state is [on]. *)
Definition dimmable_inv (v : value) : bool :=
  match v with
  | VDict d =>
      match dict_get "state" d, dict_get "intensity" d with
      | Some s, Some (VInt n) => Bool.eqb (0 <? n) (is_on s)
      | _, _ => false
      end
  | _ => false
  end.

(** The state invariant of the actuator entry. *)
Definition actuator_inv (v : value) : bool :=
  match v with
  | VDict d =>
      match dict_get "direction" d, dict_get "degrees" d with
      | Some dir, Some deg => is_direction dir && in_degrees_range deg
      | _, _ => false
      end
  | _ => false
  end.

Definition entry_inv (dev : string) (v : value) : bool :=
  if V7.is_dimmable dev then dimmable_inv v
  else if V7.is_servo dev then actuator_inv v
  else true.

(** The invariant of the store: every dimmable entry and the actuator entry
    satisfy their state invariant. *)
Definition store_inv (d : dict) : bool := table_all entry_inv d.

(** *** Documents that carry in-range values only *)

(** A [device_states] value for a dimmable light that keeps the invariant
    whatever the entry was: a record that gives no field at all, or both
    fields in agreement. *)
Definition dimmable_update_ok (state : value) : bool :=
  match state with
  | VDict st =>
      match dict_get "state" st, dict_get "intensity" st with
      | Some s, Some (VInt n) => Bool.eqb (0 <? n) (is_on s)
      | None, None => true
      | _, _ => false
      end
  | _ => false
  end.

(** A [device_states] value for the servo whose fields, when given, are in
    range; a value that is no record is ignored by the merge. *)
Definition actuator_update_ok (state : value) : bool :=
  match state with
  | VDict st =>
      match dict_get "direction" st with
      | Some dir => is_direction dir
      | None => true
      end
      &&
      match dict_get "degrees" st with
      | Some deg => in_degrees_range deg
      | None => true
      end
  | _ => true
  end.

Definition device_update_ok (dev : string) (state : value) : bool :=
  if V7.is_dimmable dev then dimmable_update_ok state
  else if V7.is_servo dev then actuator_update_ok state
  else true.

(** A top-level angle that is absent, rejected by [int], or in range. *)
Definition angle_ok (servo_motor_angle : value) : bool :=
  match servo_motor_angle with
  | VNone => true
  | v =>
      match V7.servo_angle_int v with
      | Ok n => (0 <=? n) && (n <=? 180)
      | Raise _ => true
      end
  end.

Definition direction_ok (servo_motor_direction : value) : bool :=
  match servo_motor_direction with
  | VNone => true
  | v => is_direction v
  end.

Definition in_range_doc (parsed_output : dict) : bool :=
  match dict_get_default "device_states" (VDict []) parsed_output with
  | VDict ds => table_all device_update_ok ds
  | _ => true
  end
  && angle_ok (dict_get_default "servo_motor_angle" VNone parsed_output)
  && direction_ok (dict_get_default "servo_motor_direction" VNone parsed_output).

(** A document with the six fields of the response schema of
    app_version_7_intensity.py. *)
Definition document (device_states light_intensity servo_motor_angle
    servo_motor_direction delay_seconds : value) : dict :=
  [ ("device_states", device_states);
    ("light_intensity", light_intensity);
    ("servo_motor_angle", servo_motor_angle);
    ("servo_motor_direction", servo_motor_direction);
    ("chatbot_message", VStr "Done");
    ("delay_seconds", delay_seconds) ].

(** Documents that carry one kind of update only. *)
Definition states_only (device_states : value) : dict :=
  document device_states (VDict []) VNone VNone (VInt 0).

Definition intensity_only (light : string) (intensity : value) : dict :=
  document (VDict []) (VDict [(light, intensity)]) VNone VNone (VInt 0).

Definition angle_only (servo_motor_angle : value) : dict :=
  document (VDict []) (VDict []) servo_motor_angle VNone (VInt 0).

Definition direction_only (servo_motor_direction : value) : dict :=
  document (VDict []) (VDict []) VNone servo_motor_direction (VInt 0).

Definition delay_only (delay_seconds : value) : dict :=
  document (VDict []) (VDict []) VNone VNone delay_seconds.

(** A document with the three fields of the response schema of
    app_version_6_delay.py. *)
Definition document_v6 (device_states delay_seconds : value) : dict :=
  [ ("device_states", device_states);
    ("chatbot_message", VStr "Done");
    ("delay_seconds", delay_seconds) ].

(** The text "200" followed by the degree sign U+00B0. *)
Definition two_hundred_degrees : string := "200" ++ String (chr 176) EmptyString.

(** The clamps the specification describes, for comparison with what the
    merge stores. *)
Definition clamp (lo hi n : Z) : Z := Z.max lo (Z.min hi n).

End Table.

(* ================================================================== *)
(** ** The wire frame as the specification words it *)
(* ================================================================== *)

Module FrameSpec.
Import Py.

(** "Field values containing the delimiter or quote characters must be
    quoted per standard comma-separated-value escaping rules": such a field
    is put between quotes and its quotes are doubled. *)
Fixpoint has_delimiter_or_quote (s : string) : bool :=
  match s with
  | EmptyString => false
  | String c s' =>
      Ascii.eqb c (chr 44) || Ascii.eqb c (chr 34) || has_delimiter_or_quote s'
  end.

Fixpoint escape_quotes (s : string) : string :=
  match s with
  | EmptyString => EmptyString
  | String c s' =>
      if Ascii.eqb c (chr 34) then String c (String c (escape_quotes s'))
      else String c (escape_quotes s')
  end.

Definition quoted (field : string) : string :=
  if has_delimiter_or_quote field
  then String (chr 34) (escape_quotes field ++ String (chr 34) EmptyString)
  else field.

(** "a comma-separated record" *)
Definition record (fields : list string) : string :=
  String.concat "," (map quoted fields).

(** "the literal prefix START, followed by a comma-separated record ...,
    followed by the literal suffix END, followed by a single newline" *)
Definition frame (fields : list string) : string :=
  "START" ++ record fields ++ "END" ++ String (chr 10) EmptyString.

(** "Binary -> id,on|off" *)
Definition binary_frame (id state : string) : string := frame [id; state].

(** "Dimmable -> id,on|off,intensity" *)
Definition dimmable_frame (id state : string) (intensity : Z) : string :=
  frame [id; state; string_of_int intensity].

(** "Actuator -> id,direction,degrees" *)
Definition actuator_frame (id direction : string) (degrees : Z) : string :=
  frame [id; direction; string_of_int degrees].

(** "exactly one line": the text ends with a newline and holds no other. *)
Fixpoint is_single_line (m : string) : bool :=
  match m with
  | EmptyString => false
  | String c EmptyString => Ascii.eqb c (chr 10)
  | String c rest => negb (Ascii.eqb c (chr 10)) && is_single_line rest
  end.

(** *** Conditions on the fields *)

Definition not_line_feed (c : ascii) : bool := negb (Ascii.eqb c (chr 10)).

Definition not_line_break (c : ascii) : bool :=
  negb (Ascii.eqb c (chr 13)) && negb (Ascii.eqb c (chr 10)).

(** No carriage return and no line feed. *)
Definition no_line_break (s : string) : bool := all_chars not_line_break s.

(** The characters of the decimal text of an integer. *)
Definition is_int_char (c : ascii) : bool :=
  ((48 <=? code c) && (code c <=? 57)) || Ascii.eqb c (chr 45).

(** The first character, if any, is not white space. *)
Definition starts_clean (s : string) : bool :=
  match s with
  | EmptyString => true
  | String c _ => negb (is_space c)
  end.

(** The last character, if any, is not white space. *)
Definition ends_clean (s : string) : bool := last_fails is_space s.

End FrameSpec.

(* ================================================================== *)
(** ** The on/off merge as a function on tables *)
(* ================================================================== *)

Module Overlay.
Import Py.

(** [if device in table and allowed(device): table[device] = state] *)
Definition overwrite (allowed : string -> bool) (device : string) (state : value)
    (table : dict) : dict :=
  if dict_mem device table && allowed device
  then dict_set device state table
  else table.

(** The entries of a document applied in their order. *)
Definition overlay (allowed : string -> bool) (entries table : dict) : dict :=
  fold_left (fun t kv => overwrite allowed (fst kv) (snd kv) t) entries table.

Definition any_name (device : string) : bool := true.

(** [device != 'chatbot message'] *)
Definition not_chatbot_message (device : string) : bool :=
  negb (String.eqb device "chatbot message").

End Overlay.

(* ================================================================== *)
(** ** Documents that app_version_7_intensity accepts *)
(* ================================================================== *)

Module Accept.
Import Py Ctl Table.

(** A value of the [light_intensity] map that does not stop the merge:
    one for a device that is no dimmable light, one that [int] accepts, or
    one that [int] rejects with an exception the loop handles. *)
Definition intensity_accepted (light : string) (intensity : value) : bool :=
  negb (V7.is_dimmable light)
  || match int (V7.strip_percent intensity) with
     | Ok _ => true
     | Raise e => is_value_or_type_error e
     end.

(** [device_states] and [light_intensity] are dictionaries (or absent),
    no intensity stops the merge, and [int] accepts the delay. *)
Definition accepted (parsed_output : dict) : bool :=
  match dict_get_default "device_states" (VDict []) parsed_output,
        dict_get_default "light_intensity" (VDict []) parsed_output with
  | VDict _, VDict li =>
      forallb (fun kv => intensity_accepted (fst kv) (snd kv)) li
      && match int (dict_get_default "delay_seconds" (VInt 0) parsed_output) with
         | Ok _ => true
         | Raise _ => false
         end
  | _, _ => false
  end.

(** A table with the keys the constructor registered and entries of the
    constructor's shapes. *)
Definition ready (d : dict) : Prop :=
  shape_ok d = true /\ dict_keys d = dict_keys V7.initial_device_states.

End Accept.

(* ================================================================== *)
(** ** The value of a text of decimal digits *)
(* ================================================================== *)

Module Digits.
Import Py.

Definition is_digit (c : ascii) : bool :=
  match digit_of c with
  | Some _ => true
  | None => false
  end.

(** The number a run of digits denotes, read after the number [acc]. *)
Fixpoint digits_val (s : string) (acc : Z) : Z :=
  match s with
  | EmptyString => acc
  | String c s' =>
      match digit_of c with
      | Some d => digits_val s' (acc * 10 + d)
      | None => acc
      end
  end.

End Digits.

(* ================================================================== *)
(** ** Lemmas on dictionaries *)
(* ================================================================== *)

Import Py Ctl Ctl.Notations Table FrameSpec Overlay Accept Digits.

Lemma dict_mem_get (k : string) (d : dict) :
  dict_mem k d = true <-> exists v, dict_get k d = Some v.
Proof.
  induction d as [|[k' v'] d IH]; simpl.
  - split; [discriminate | intros [v H]; discriminate].
  - destruct (String.eqb k k').
    + split; [intros _; now exists v' | reflexivity].
    + exact IH.
Qed.

Lemma dict_keys_set (k : string) (v : value) (d : dict) :
  dict_mem k d = true -> dict_keys (dict_set k v d) = dict_keys d.
Proof.
  induction d as [|[k' v'] d IH]; simpl; [discriminate|].
  destruct (String.eqb k k'); simpl; intros H.
  - reflexivity.
  - now rewrite IH.
Qed.

Lemma dict_mem_set (k k' : string) (v : value) (d : dict) :
  dict_mem k' (dict_set k v d) = dict_mem k' d || String.eqb k' k.
Proof.
  induction d as [|[k0 v0] d IH]; simpl.
  - now destruct (String.eqb k' k).
  - destruct (String.eqb k k0) eqn:E; simpl.
    + destruct (String.eqb k' k0) eqn:E'; [reflexivity|].
      apply String.eqb_eq in E; subst k0. rewrite E'.
      now rewrite orb_false_r.
    + destruct (String.eqb k' k0); [reflexivity | exact IH].
Qed.

Lemma dict_get_set_same (k : string) (v : value) (d : dict) :
  dict_get k (dict_set k v d) = Some v.
Proof.
  induction d as [|[k0 v0] d IH]; simpl.
  - now rewrite String.eqb_refl.
  - destruct (String.eqb k k0) eqn:E; simpl; rewrite E; [reflexivity | exact IH].
Qed.

Lemma dict_get_set_other (k k' : string) (v : value) (d : dict) :
  String.eqb k' k = false -> dict_get k' (dict_set k v d) = dict_get k' d.
Proof.
  intros Hne. induction d as [|[k0 v0] d IH]; simpl.
  - now rewrite Hne.
  - destruct (String.eqb k k0) eqn:E; simpl.
    + apply String.eqb_eq in E; subst k0. now rewrite Hne.
    + now rewrite IH.
Qed.

Lemma table_all_get (p : string -> value -> bool) (k : string) (v : value) (d : dict) :
  table_all p d = true -> dict_get k d = Some v -> p k v = true.
Proof.
  unfold table_all.
  induction d as [|[k0 v0] d IH]; simpl; [discriminate|].
  intros H. apply andb_prop in H as [H0 Hd].
  destruct (String.eqb k k0) eqn:E.
  - apply String.eqb_eq in E; subst k0. now intros [= <-].
  - now apply IH.
Qed.

Lemma table_all_set (p : string -> value -> bool) (k : string) (v : value) (d : dict) :
  table_all p d = true -> p k v = true -> table_all p (dict_set k v d) = true.
Proof.
  unfold table_all. intros Hd Hv.
  induction d as [|[k0 v0] d IH]; simpl in *.
  - now rewrite Hv.
  - apply andb_prop in Hd as [H0 Hd].
    destruct (String.eqb k k0) eqn:E; simpl.
    + apply String.eqb_eq in E; subst k0. now rewrite Hv, Hd.
    + now rewrite H0, IH.
Qed.

(* ================================================================== *)
(** ** Lemmas on the controller monad *)
(* ================================================================== *)

Section Preservation.
Variable Q : dict -> Prop.

Lemma preserves_ret {A} (a : A) : preserves Q (ret a).
Proof. intros c H; exact H. Qed.

Lemma preserves_lift {A} (r : result A) : preserves Q (lift r).
Proof. intros c H; exact H. Qed.

Lemma preserves_bind {A B} (m : M A) (k : A -> M B) :
  preserves Q m -> (forall a, preserves Q (k a)) -> preserves Q (bind m k).
Proof.
  intros Hm Hk c H. unfold bind.
  specialize (Hm c H). destruct (m c) as [[a|e] c']; simpl in *.
  - now apply Hk.
  - exact Hm.
Qed.

Lemma preserves_try_except {A} (body : M A) handled (handler : exn -> M A) :
  preserves Q body -> (forall e, preserves Q (handler e)) ->
  preserves Q (try_except body handled handler).
Proof.
  intros Hb Hh c H. unfold try_except.
  specialize (Hb c H). destruct (body c) as [[a|e] c']; simpl in *.
  - exact Hb.
  - destruct (handled e); [now apply Hh | exact Hb].
Qed.

Lemma preserves_for_each (l : dict) (body : string -> value -> M unit) :
  (forall k v, In (k, v) l -> preserves Q (body k v)) ->
  preserves Q (for_each l body).
Proof.
  induction l as [|[k v] l IH]; simpl; intros Hb.
  - apply preserves_ret.
  - apply preserves_bind.
    + apply Hb. now left.
    + intros _. apply IH. intros k' v' Hin. apply Hb. now right.
Qed.

Lemma preserves_logging_error (e : log_entry) : preserves Q (logging_error e).
Proof. intros c H; exact H. Qed.

Lemma preserves_get_device (dev : string) : preserves Q (get_device dev).
Proof.
  intros c H. unfold get_device.
  now destruct (dict_get dev (device_states c)).
Qed.

Lemma preserves_get_field (dev field : string) : preserves Q (get_field dev field).
Proof.
  apply preserves_bind; [apply preserves_get_device | intros; apply preserves_lift].
Qed.

Lemma preserves_items (v : value) : preserves Q (items v).
Proof. destruct v; intros c H; exact H. Qed.

End Preservation.

(** What the accessors compute on a table whose entry is a record. *)
Lemma get_device_spec (dev : string) (x : value) (c : controller) :
  dict_get dev (device_states c) = Some x -> get_device dev c = (Ok x, c).
Proof. intros H. unfold get_device. now rewrite H. Qed.

Lemma get_field_spec (dev field : string) (d : dict) (x : value) (c : controller) :
  dict_get dev (device_states c) = Some (VDict d) ->
  dict_get field d = Some x ->
  get_field dev field c = (Ok x, c).
Proof.
  intros H Hf. unfold get_field, bind. rewrite (get_device_spec _ _ _ H).
  simpl. unfold lift. simpl. now rewrite Hf.
Qed.

Lemma set_field_spec (dev field : string) (v : value) (d : dict) (c : controller) :
  dict_get dev (device_states c) = Some (VDict d) ->
  set_field dev field v c =
  (Ok tt, mkController (dict_set dev (VDict (dict_set field v d)) (device_states c)) (log c)).
Proof.
  intros H. unfold set_field, bind. now rewrite (get_device_spec _ _ _ H).
Qed.

(** A failed [set_field] leaves the controller as it was. *)
Lemma set_field_cases (dev field : string) (v : value) (c : controller) :
  (exists d, dict_get dev (device_states c) = Some (VDict d) /\
     set_field dev field v c =
     (Ok tt, mkController (dict_set dev (VDict (dict_set field v d)) (device_states c)) (log c)))
  \/ (exists e, set_field dev field v c = (Raise e, c)).
Proof.
  destruct (dict_get dev (device_states c)) as [x|] eqn:H.
  - destruct x; try (right; exists TypeError; unfold set_field, bind;
      rewrite (get_device_spec _ _ _ H); reflexivity).
    left. exists d. split; [reflexivity | now apply set_field_spec].
  - right. exists KeyError. unfold set_field, bind, get_device. now rewrite H.
Qed.

(* ================================================================== *)
(** ** Table properties kept by every merge of app_version_7_intensity *)
(* ================================================================== *)

Lemma bind_has_device {B} (dev : string) (k : bool -> M B) (c : controller) :
  bind (has_device dev) k c = k (dict_mem dev (device_states c)) c.
Proof. reflexivity. Qed.

Section MergeKeeps.
Variable Q : dict -> Prop.
Hypothesis Q_set_field : forall dev field v, preserves Q (set_field dev field v).
Hypothesis Q_set_plain :
  forall dev v d,
    dict_mem dev d = true -> V7.is_dimmable dev = false -> V7.is_servo dev = false ->
    Q d -> Q (dict_set dev v d).

Local Ltac keep :=
  repeat first
    [ apply preserves_ret
    | apply preserves_lift
    | apply preserves_logging_error
    | apply preserves_get_device
    | apply preserves_get_field
    | apply preserves_items
    | apply Q_set_field
    | apply preserves_bind; [|intros ?]
    | apply preserves_try_except; [|intros ?]
    | match goal with |- preserves _ (if ?b then _ else _) => destruct b end
    | match goal with |- preserves _ (match ?v with _ => _ end) => destruct v end ].

Lemma update_device_keeps (dev : string) (state : value) :
  preserves Q (V7.update_device dev state).
Proof.
  intros c HQ. unfold V7.update_device. rewrite bind_has_device.
  destruct (dict_mem dev (device_states c)) eqn:Hmem; [|exact HQ].
  destruct (V7.is_dimmable dev) eqn:Hdim; [|destruct (V7.is_servo dev) eqn:Hservo].
  - clear Hmem. revert c HQ.
    match goal with |- forall c, _ -> Q (device_states (snd (?m c))) =>
      change (preserves Q m) end.
    keep.
  - clear Hmem. revert c HQ.
    match goal with |- forall c, _ -> Q (device_states (snd (?m c))) =>
      change (preserves Q m) end.
    keep.
  - simpl. now apply Q_set_plain.
Qed.

Lemma update_intensity_keeps (light : string) (intensity : value) :
  preserves Q (V7.update_intensity light intensity).
Proof. unfold V7.update_intensity. keep. Qed.

Lemma update_servo_angle_keeps (v : value) : preserves Q (V7.update_servo_angle v).
Proof. unfold V7.update_servo_angle. keep. Qed.

Lemma update_servo_direction_keeps (v : value) :
  preserves Q (V7.update_servo_direction v).
Proof. unfold V7.update_servo_direction. keep. Qed.

Lemma merge_keeps (parsed_output : dict) : preserves Q (V7.merge parsed_output).
Proof.
  unfold V7.merge.
  apply preserves_bind; [apply preserves_items | intros ds].
  apply preserves_bind;
    [apply preserves_for_each; intros; apply update_device_keeps | intros _].
  apply preserves_bind; [apply preserves_items | intros li].
  apply preserves_bind;
    [apply preserves_for_each; intros; apply update_intensity_keeps | intros _].
  apply preserves_bind; [apply update_servo_angle_keeps | intros _].
  apply update_servo_direction_keeps.
Qed.

Lemma parse_command_keeps (parsed_output : dict) (c : controller) :
  Q (device_states c) -> Q (device_states (snd (V7.parse_command parsed_output c))).
Proof.
  intros HQ. unfold V7.parse_command.
  assert (H : preserves Q (V7.parse_command_body parsed_output)).
  { unfold V7.parse_command_body. apply preserves_bind; [apply merge_keeps|].
    intros _ c0 H0. unfold V7.build_result.
    now destruct (int _). }
  specialize (H c HQ).
  now destruct (V7.parse_command_body parsed_output c) as [[r|e] c'].
Qed.

Lemma run_commands_keeps (docs : list dict) (c : controller) :
  Q (device_states c) -> Q (device_states (V7.run_commands docs c)).
Proof.
  revert c. induction docs as [|doc docs IH]; simpl; intros c HQ; [exact HQ|].
  apply IH. now apply parse_command_keeps.
Qed.

End MergeKeeps.

Lemma dict_mem_keys (k : string) (d : dict) :
  dict_mem k d = existsb (String.eqb k) (dict_keys d).
Proof.
  induction d as [|[k' v'] d IH]; simpl; [reflexivity|].
  destruct (String.eqb k k'); [reflexivity | exact IH].
Qed.

Lemma set_field_keeps_keys (K : list string) (dev field : string) (v : value) :
  preserves (fun d => dict_keys d = K) (set_field dev field v).
Proof.
  intros c HK.
  destruct (set_field_cases dev field v c) as [(d & Hget & ->)|(e & ->)]; simpl;
    [|exact HK].
  rewrite dict_keys_set; [exact HK|].
  apply dict_mem_get. eauto.
Qed.

Lemma set_plain_keeps_keys (K : list string) (dev : string) (v : value) (d : dict) :
  dict_mem dev d = true -> V7.is_dimmable dev = false -> V7.is_servo dev = false ->
  dict_keys d = K -> dict_keys (dict_set dev v d) = K.
Proof. intros Hmem _ _ HK. now rewrite dict_keys_set. Qed.

Lemma has_fields_set (f1 f2 field : string) (v : value) (d : dict) :
  has_fields f1 f2 (VDict d) = true ->
  has_fields f1 f2 (VDict (dict_set field v d)) = true.
Proof.
  simpl. rewrite !dict_mem_set. intros H.
  apply andb_prop in H as [-> ->]. reflexivity.
Qed.

Lemma entry_shape_set (dev field : string) (v : value) (d : dict) :
  entry_shape dev (VDict d) = true ->
  entry_shape dev (VDict (dict_set field v d)) = true.
Proof.
  unfold entry_shape.
  destruct (V7.is_dimmable dev); [apply has_fields_set|].
  destruct (V7.is_servo dev); [apply has_fields_set | reflexivity].
Qed.

Lemma set_field_keeps_shape (dev field : string) (v : value) :
  preserves (fun d => shape_ok d = true) (set_field dev field v).
Proof.
  intros c Hs.
  destruct (set_field_cases dev field v c) as [(d & Hget & ->)|(e & ->)]; simpl;
    [|exact Hs].
  apply table_all_set; [exact Hs|].
  apply entry_shape_set. exact (table_all_get _ _ _ _ Hs Hget).
Qed.

Lemma set_plain_keeps_shape (dev : string) (v : value) (d : dict) :
  dict_mem dev d = true -> V7.is_dimmable dev = false -> V7.is_servo dev = false ->
  shape_ok d = true -> shape_ok (dict_set dev v d) = true.
Proof.
  intros _ Hdim Hservo Hs. apply table_all_set; [exact Hs|].
  unfold entry_shape. now rewrite Hdim, Hservo.
Qed.

Lemma for_each_app (l1 l2 : dict) (body : string -> value -> M unit) (c : controller) :
  for_each (l1 ++ l2)%list body c =
  match for_each l1 body c with
  | (Ok _, c') => for_each l2 body c'
  | (Raise e, c') => (Raise e, c')
  end.
Proof.
  revert c. induction l1 as [|[k v] l1 IH]; simpl; intros c; [reflexivity|].
  unfold bind. destruct (body k v c) as [[[]|e] c']; [apply IH | reflexivity].
Qed.

Lemma not_registered_not_dimmable (device : string) :
  dict_mem device V7.initial_device_states = false -> V7.is_dimmable device = false.
Proof.
  intros H. unfold V7.is_dimmable.
  destruct (String.eqb device "room 2 light") eqn:E2.
  { apply String.eqb_eq in E2; subst. discriminate H. }
  destruct (String.eqb device "room 3 light") eqn:E3.
  { apply String.eqb_eq in E3; subst. discriminate H. }
  reflexivity.
Qed.

Lemma update_device_unknown (device : string) (v : value) (c : controller) :
  dict_mem device (device_states c) = false ->
  V7.update_device device v c = (Ok tt, c).
Proof.
  intros H. unfold V7.update_device. rewrite bind_has_device, H. reflexivity.
Qed.

Lemma reachable_keys (docs : list dict) :
  dict_keys (device_states (V7.run_commands docs V7.init))
  = dict_keys V7.initial_device_states.
Proof.
  apply (run_commands_keeps (fun d => dict_keys d = dict_keys V7.initial_device_states)).
  - intros; apply set_field_keeps_keys.
  - intros; now apply set_plain_keeps_keys.
  - reflexivity.
Qed.

(* ================================================================== *)
(** ** The claims *)
(* ================================================================== *)

(** C9.  The merge neither adds a key to the device table nor removes one:
    [parse_command] leaves the list of keys of any table as it was, in the
    same order, whether it returns a result or fails; hence after any
    sequence of merges from the table built by the constructor the keys are
    the nine names the constructor registered. *)
Theorem store_keys_fixed :
  (forall (parsed_output : dict) (c : controller),
      dict_keys (device_states (snd (V7.parse_command parsed_output c)))
      = dict_keys (device_states c))
  /\ (forall docs : list dict,
      dict_keys (device_states (V7.run_commands docs V7.init))
      = ["room 1 light"; "room 2 light"; "room 3 light"; "room 4 light";
         "kitchen light"; "TV"; "Refrigerator"; "DC motor"; "Servo motor"]).
Proof.
  split.
  - intros parsed_output c.
    apply (parse_command_keeps (fun d => dict_keys d = dict_keys (device_states c))).
    + intros; apply set_field_keeps_keys.
    + intros; now apply set_plain_keeps_keys.
    + reflexivity.
  - intros docs. now rewrite reachable_keys.
Qed.

(** C10.  A value for "Servo motor" in the per-device map that is not a
    dictionary (the bare token "on", a number, a list, null) is ignored:
    the loop body returns without an exception and leaves the whole
    controller, the servo's direction and degrees included, as it was. *)
Theorem servo_non_dict_ignored (v : value) (c : controller) :
  is_dict v = false ->
  V7.update_device "Servo motor" v c = (Ok tt, c).
Proof.
  intros Hv. unfold V7.update_device. rewrite bind_has_device.
  destruct (dict_mem "Servo motor" (device_states c)); [|reflexivity].
  change (V7.is_dimmable "Servo motor") with false.
  change (V7.is_servo "Servo motor") with true. cbv iota.
  destruct v; try reflexivity. discriminate Hv.
Qed.

Lemma servo_non_dict_ignored_witness :
  V7.update_device "Servo motor" (VStr "on") V7.init = (Ok tt, V7.init).
Proof. apply servo_non_dict_ignored. reflexivity. Defined.

Lemma for_each_skip (l1 l2 : dict) (k : string) (v : value)
    (body : string -> value -> M unit) (P : controller -> Prop) (c : controller) :
  P c ->
  (forall c', P c' -> P (snd (for_each l1 body c'))) ->
  (forall c', P c' -> body k v c' = (Ok tt, c')) ->
  for_each (l1 ++ (k, v) :: l2)%list body c = for_each (l1 ++ l2)%list body c.
Proof.
  intros HP Hl1 Hskip. rewrite !for_each_app.
  specialize (Hl1 c HP).
  destruct (for_each l1 body c) as [[[]|e] c']; [|reflexivity].
  simpl in *. unfold bind. now rewrite Hskip.
Qed.

(** C7.  An entry whose identifier is not among the registered names is
    skipped silently, in every state the controller can reach by merges:
    the loop body of the per-device pass and the one of the intensity pass
    return without an exception and leave the controller (table and log)
    untouched, so a document with such an entry is merged exactly like the
    document without it; no merge ever creates an entry for the identifier;
    [parse_json_response] of merged_app.py skips it in the same way. *)
Theorem unknown_device_skipped (docs : list dict) (device : string) (v : value) :
  dict_mem device V7.initial_device_states = false ->
  let c := V7.run_commands docs V7.init in
  V7.update_device device v c = (Ok tt, c)
  /\ V7.update_intensity device v c = (Ok tt, c)
  /\ (forall ds1 ds2 : dict,
        for_each (ds1 ++ (device, v) :: ds2)%list V7.update_device c
        = for_each (ds1 ++ ds2)%list V7.update_device c)
  /\ (forall li1 li2 : dict,
        for_each (li1 ++ (device, v) :: li2)%list V7.update_intensity c
        = for_each (li1 ++ li2)%list V7.update_intensity c)
  /\ (forall parsed_output : dict,
        dict_mem device (device_states (snd (V7.parse_command parsed_output c))) = false)
  /\ (forall c0 : controller,
        dict_mem device (device_states c0) = false ->
        Merged.update_device device v c0 = (Ok tt, c0)).
Proof.
  intros Hreg c.
  assert (Hdim : V7.is_dimmable device = false)
    by now apply not_registered_not_dimmable.
  assert (Hc : dict_mem device (device_states c) = false).
  { rewrite dict_mem_keys. unfold c. rewrite reachable_keys.
    now rewrite <- dict_mem_keys. }
  assert (Hint : forall c', V7.update_intensity device v c' = (Ok tt, c')).
  { intros c'. unfold V7.update_intensity. now rewrite Hdim. }
  repeat split.
  - now apply update_device_unknown.
  - apply Hint.
  - intros ds1 ds2.
    apply (for_each_skip ds1 ds2 device v V7.update_device
             (fun c' => dict_keys (device_states c') = dict_keys (device_states c))).
    + reflexivity.
    + intros c' Hk.
      apply (preserves_for_each
               (fun d => dict_keys d = dict_keys (device_states c))); [|exact Hk].
      intros k x _. apply update_device_keeps.
      * intros; apply set_field_keeps_keys.
      * intros; now apply set_plain_keeps_keys.
    + intros c' Hk. apply update_device_unknown.
      now rewrite dict_mem_keys, Hk, <- dict_mem_keys.
  - intros li1 li2.
    now apply (for_each_skip li1 li2 device v V7.update_intensity (fun _ => True)).
  - intros parsed_output. rewrite <- Hc, !dict_mem_keys. f_equal.
    apply (parse_command_keeps (fun d => dict_keys d = dict_keys (device_states c))).
    + intros; apply set_field_keeps_keys.
    + intros; now apply set_plain_keeps_keys.
    + reflexivity.
  - intros c0 H0. unfold Merged.update_device. rewrite bind_has_device, H0.
    reflexivity.
Qed.

Lemma unknown_device_skipped_witness :
  V7.update_device "garage door" (VStr "on") V7.init = (Ok tt, V7.init).
Proof.
  apply (unknown_device_skipped [] "garage door" (VStr "on")). reflexivity.
Defined.

(* ================================================================== *)
(** ** What the loop bodies compute on a well-shaped table *)
(* ================================================================== *)

Lemma dict_set_twice (k : string) (v1 v2 : value) (d : dict) :
  dict_set k v2 (dict_set k v1 d) = dict_set k v2 d.
Proof.
  induction d as [|[k0 v0] d IH]; simpl.
  - now rewrite String.eqb_refl.
  - destruct (String.eqb k k0) eqn:E; simpl; rewrite E; [reflexivity | now rewrite IH].
Qed.

(** The pattern of lines 130-131 and 138-139: two fields of the record
    stored under [dev] are overwritten one after the other, each from a
    value that may depend on the field's previous content. *)
Lemma update_two_fields (dev f1 f2 : string) (k1 k2 : value -> value)
    (d : dict) (x1 x2 : value) (c : controller) :
  dict_get dev (device_states c) = Some (VDict d) ->
  dict_get f1 d = Some x1 ->
  dict_get f2 d = Some x2 ->
  String.eqb f2 f1 = false ->
  (old1 <- get_field dev f1 ;;
   set_field dev f1 (k1 old1) ;;;
   old2 <- get_field dev f2 ;;
   set_field dev f2 (k2 old2)) c
  = (Ok tt,
     mkController
       (dict_set dev (VDict (dict_set f2 (k2 x2) (dict_set f1 (k1 x1) d)))
          (device_states c))
       (log c)).
Proof.
  intros Hdev H1 H2 Hne.
  unfold bind at 1. rewrite (get_field_spec _ _ _ _ _ Hdev H1).
  unfold bind at 1. rewrite (set_field_spec _ _ _ _ _ Hdev).
  set (c1 := mkController _ _).
  assert (Hdev1 : dict_get dev (device_states c1) = Some (VDict (dict_set f1 (k1 x1) d)))
    by apply dict_get_set_same.
  assert (H2' : dict_get f2 (dict_set f1 (k1 x1) d) = Some x2)
    by now rewrite dict_get_set_other.
  unfold bind at 1. rewrite (get_field_spec _ _ _ _ _ Hdev1 H2').
  rewrite (set_field_spec _ _ _ _ _ Hdev1).
  unfold c1; simpl. now rewrite dict_set_twice.
Qed.

(** The second loop on a value that [int] accepts. *)
Lemma update_intensity_ok (light : string) (v : value) (n : Z) (d : dict)
    (c : controller) :
  V7.is_dimmable light = true ->
  int (V7.strip_percent v) = Ok n ->
  dict_get light (device_states c) = Some (VDict d) ->
  V7.update_intensity light v c
  = (Ok tt,
     mkController
       (dict_set light
          (VDict (dict_set "state" (VStr (if n >? 0 then "on" else "off"))
                    (dict_set "intensity" (VInt n) d)))
          (device_states c))
       (log c)).
Proof.
  intros Hdim Hint Hdev. unfold V7.update_intensity. rewrite Hdim.
  unfold try_except, bind, lift. rewrite Hint.
  rewrite (set_field_spec _ _ _ _ _ Hdev).
  set (c1 := mkController _ _).
  assert (Hdev1 : dict_get light (device_states c1)
                  = Some (VDict (dict_set "intensity" (VInt n) d)))
    by apply dict_get_set_same.
  destruct (n >? 0); rewrite (set_field_spec _ _ _ _ _ Hdev1);
    unfold c1; simpl; now rewrite dict_set_twice.
Qed.

(** The second loop on a value that [int] rejects: [ValueError] and
    [TypeError] are logged and the loop goes on, another exception leaves
    the loop; the table is untouched in both cases. *)
Lemma update_intensity_rejected (light : string) (v : value) (e : exn)
    (c : controller) :
  V7.is_dimmable light = true ->
  int (V7.strip_percent v) = Raise e ->
  V7.update_intensity light v c
  = if is_value_or_type_error e
    then (Ok tt, mkController (device_states c)
                   (log c ++ [InvalidIntensity (V7.strip_percent v)]))
    else (Raise e, c).
Proof.
  intros Hdim Hint. unfold V7.update_intensity. rewrite Hdim.
  unfold try_except, bind, lift. rewrite Hint. reflexivity.
Qed.

(* ================================================================== *)
(** ** The state invariant under in-range documents *)
(* ================================================================== *)

Lemma dimmable_inv_fields (d : dict) (s : value) (n : Z) :
  dict_get "state" d = Some s ->
  dict_get "intensity" d = Some (VInt n) ->
  Bool.eqb (0 <? n) (is_on s) = true ->
  dimmable_inv (VDict d) = true.
Proof. intros Hs Hi H. simpl. now rewrite Hs, Hi. Qed.

Lemma dimmable_inv_inv (x : value) :
  dimmable_inv x = true ->
  exists d s n, x = VDict d /\ dict_get "state" d = Some s /\
                dict_get "intensity" d = Some (VInt n) /\
                Bool.eqb (0 <? n) (is_on s) = true.
Proof.
  destruct x; try discriminate. simpl.
  destruct (dict_get "state" d) as [s|] eqn:Hs; [|discriminate].
  destruct (dict_get "intensity" d) as [[]|] eqn:Hi; try discriminate.
  intros H. now exists d, s, n.
Qed.

Lemma actuator_inv_inv (x : value) :
  actuator_inv x = true ->
  exists d dir deg, x = VDict d /\ dict_get "direction" d = Some dir /\
                    dict_get "degrees" d = Some deg /\
                    is_direction dir = true /\ in_degrees_range deg = true.
Proof.
  destruct x; try discriminate. simpl.
  destruct (dict_get "direction" d) as [dir|] eqn:Hdir; [|discriminate].
  destruct (dict_get "degrees" d) as [deg|] eqn:Hdeg; [|discriminate].
  intros H. apply andb_prop in H as [? ?]. now exists d, dir, deg.
Qed.

Lemma actuator_inv_set_degrees (d : dict) (g : value) :
  actuator_inv (VDict d) = true -> in_degrees_range g = true ->
  actuator_inv (VDict (dict_set "degrees" g d)) = true.
Proof.
  intros H Hg. apply actuator_inv_inv in H as (d' & dir & deg & [= <-] & Hd & _ & Hdir & _).
  simpl. rewrite dict_get_set_other by reflexivity.
  now rewrite Hd, dict_get_set_same, Hdir, Hg.
Qed.

Lemma actuator_inv_set_direction (d : dict) (dir : value) :
  actuator_inv (VDict d) = true -> is_direction dir = true ->
  actuator_inv (VDict (dict_set "direction" dir d)) = true.
Proof.
  intros H Hdir. apply actuator_inv_inv in H as (d' & dir0 & deg & [= <-] & _ & Hg & _ & Hdeg).
  simpl. rewrite dict_get_set_same, dict_get_set_other by reflexivity.
  now rewrite Hg, Hdir, Hdeg.
Qed.

Lemma on_off_agrees (n : Z) :
  Bool.eqb (0 <? n) (is_on (VStr (if n >? 0 then "on" else "off"))) = true.
Proof.
  rewrite Z.gtb_ltb. now destruct (0 <? n).
Qed.

Lemma update_intensity_inv (light : string) (v : value) :
  preserves (fun d => store_inv d = true) (V7.update_intensity light v).
Proof.
  intros c Hinv.
  destruct (V7.is_dimmable light) eqn:Hdim;
    [|unfold V7.update_intensity; now rewrite Hdim].
  destruct (int (V7.strip_percent v)) as [n|e] eqn:Hint.
  - destruct (dict_get light (device_states c)) as [x|] eqn:Hdev.
    + pose proof (table_all_get _ _ _ _ Hinv Hdev) as Hx.
      unfold entry_inv in Hx. rewrite Hdim in Hx.
      apply dimmable_inv_inv in Hx as (d & s & n0 & -> & _).
      rewrite (update_intensity_ok _ _ _ _ _ Hdim Hint Hdev). simpl.
      apply table_all_set; [exact Hinv|].
      unfold entry_inv. rewrite Hdim.
      apply (dimmable_inv_fields _ (VStr (if n >? 0 then "on" else "off")) n).
      * apply dict_get_set_same.
      * rewrite dict_get_set_other by reflexivity. apply dict_get_set_same.
      * apply on_off_agrees.
    + unfold V7.update_intensity. rewrite Hdim.
      unfold try_except, bind, lift, set_field, bind, get_device.
      rewrite Hint, Hdev. exact Hinv.
  - rewrite (update_intensity_rejected _ _ _ _ Hdim Hint).
    destruct (is_value_or_type_error e); exact Hinv.
Qed.

Lemma set_servo_field_inv (field : string) (v : value) :
  (forall d, actuator_inv (VDict d) = true ->
             actuator_inv (VDict (dict_set field v d)) = true) ->
  preserves (fun d => store_inv d = true) (set_field "Servo motor" field v).
Proof.
  intros Hf c Hinv.
  destruct (set_field_cases "Servo motor" field v c) as [(d & Hget & ->)|(e & ->)];
    simpl; [|exact Hinv].
  apply table_all_set; [exact Hinv|].
  pose proof (table_all_get _ _ _ _ Hinv Hget) as Hx.
  unfold entry_inv in *. simpl in *. now apply Hf.
Qed.

Lemma update_servo_angle_inv (v : value) :
  angle_ok v = true ->
  preserves (fun d => store_inv d = true) (V7.update_servo_angle v).
Proof.
  intros Hok.
  assert (H : preserves (fun d => store_inv d = true)
                (try_except
                   (n <- lift (V7.servo_angle_int v) ;;
                    set_field "Servo motor" "degrees" (VInt n))
                   is_value_or_type_error
                   (fun _ => logging_error (InvalidServoAngle v)))).
  { apply preserves_try_except; [|intros; apply preserves_logging_error].
    intros c Hinv. unfold bind, lift.
    destruct (V7.servo_angle_int v) as [n|e] eqn:Hn; [|exact Hinv].
    apply set_servo_field_inv; [|exact Hinv].
    intros d Hd. apply actuator_inv_set_degrees; [exact Hd|].
    destruct v; simpl in Hok; try rewrite Hn in Hok; try exact Hok;
      discriminate Hn. }
  destruct v; first [apply preserves_ret | exact H].
Qed.

Lemma update_servo_direction_inv (v : value) :
  direction_ok v = true ->
  preserves (fun d => store_inv d = true) (V7.update_servo_direction v).
Proof.
  intros Hok.
  destruct v; try discriminate Hok; try apply preserves_ret.
  apply set_servo_field_inv. intros d Hd.
  now apply actuator_inv_set_direction.
Qed.

Lemma update_device_inv (dev : string) (state : value) :
  device_update_ok dev state = true ->
  preserves (fun d => store_inv d = true) (V7.update_device dev state).
Proof.
  intros Hok c Hinv. unfold V7.update_device. rewrite bind_has_device.
  destruct (dict_mem dev (device_states c)) eqn:Hmem; [|exact Hinv].
  apply dict_mem_get in Hmem as [cur Hcur].
  pose proof (table_all_get _ _ _ _ Hinv Hcur) as Hentry.
  unfold device_update_ok in Hok. unfold entry_inv in Hentry.
  destruct (V7.is_dimmable dev) eqn:Hdim; [|destruct (V7.is_servo dev) eqn:Hservo].
  - (* a dimmable light *)
    apply dimmable_inv_inv in Hentry as (d & s0 & n0 & -> & Hs0 & Hn0 & Hagree).
    unfold bind at 1. rewrite (get_device_spec _ _ _ Hcur). cbn [is_dict].
    destruct state as [| | | | |? |st]; try discriminate Hok.
    rewrite (update_two_fields dev "state" "intensity"
               (fun old => dict_get_default "state" old st)
               (fun old => dict_get_default "intensity" old st)
               d s0 (VInt n0) c Hcur Hs0 Hn0 eq_refl).
    simpl. apply table_all_set; [exact Hinv|].
    unfold entry_inv. rewrite Hdim.
    simpl in Hok. unfold dict_get_default.
    destruct (dict_get "state" st) as [s|];
      destruct (dict_get "intensity" st) as [[| |n| | | |]|]; try discriminate Hok.
    + apply (dimmable_inv_fields _ s n); [| |exact Hok].
      * rewrite dict_get_set_other by reflexivity. apply dict_get_set_same.
      * apply dict_get_set_same.
    + apply (dimmable_inv_fields _ s0 n0); [| |exact Hagree].
      * rewrite dict_get_set_other by reflexivity. apply dict_get_set_same.
      * apply dict_get_set_same.
  - (* the servo *)
    destruct state as [| | | | |? |st]; try exact Hinv.
    apply actuator_inv_inv in Hentry as (d & dir0 & deg0 & -> & Hdir0 & Hdeg0 & Hd & Hg).
    rewrite (update_two_fields dev "direction" "degrees"
               (fun old => dict_get_default "direction" old st)
               (fun old => dict_get_default "degrees" old st)
               d dir0 deg0 c Hcur Hdir0 Hdeg0 eq_refl).
    simpl. apply table_all_set; [exact Hinv|].
    unfold entry_inv. rewrite Hdim, Hservo.
    simpl in Hok. apply andb_prop in Hok as [Hokd Hokg].
    apply actuator_inv_set_degrees; [apply actuator_inv_set_direction|].
    + simpl. now rewrite Hdir0, Hdeg0, Hd, Hg.
    + unfold dict_get_default. now destruct (dict_get "direction" st).
    + unfold dict_get_default. now destruct (dict_get "degrees" st).
  - (* an on/off device *)
    simpl. apply table_all_set; [exact Hinv|].
    unfold entry_inv. now rewrite Hdim, Hservo.
Qed.

Lemma preserves_bind_items {B} (Q : dict -> Prop) (v : value) (k : dict -> M B) :
  (forall d, v = VDict d -> preserves Q (k d)) ->
  preserves Q (bind (items v) k).
Proof.
  intros H c HQ. destruct v; try exact HQ. exact (H d eq_refl c HQ).
Qed.

Lemma merge_inv (parsed_output : dict) :
  in_range_doc parsed_output = true ->
  preserves (fun d => store_inv d = true) (V7.merge parsed_output).
Proof.
  intros Hdoc. unfold in_range_doc in Hdoc.
  apply andb_prop in Hdoc as [Hdoc Hdir]. apply andb_prop in Hdoc as [Hds Hang].
  unfold V7.merge.
  apply preserves_bind_items. intros ds Hget. rewrite Hget in Hds.
  apply preserves_bind.
  { apply preserves_for_each. intros k v Hin. apply update_device_inv.
    unfold table_all in Hds. rewrite forallb_forall in Hds.
    exact (Hds (k, v) Hin). }
  intros _. apply preserves_bind_items. intros li _.
  apply preserves_bind.
  { apply preserves_for_each. intros; apply update_intensity_inv. }
  intros _. apply preserves_bind; [now apply update_servo_angle_inv | intros _].
  now apply update_servo_direction_inv.
Qed.

Lemma parse_command_inv (parsed_output : dict) (c : controller) :
  in_range_doc parsed_output = true ->
  store_inv (device_states c) = true ->
  store_inv (device_states (snd (V7.parse_command parsed_output c))) = true.
Proof.
  intros Hdoc Hinv. unfold V7.parse_command, V7.parse_command_body.
  pose proof (merge_inv parsed_output Hdoc c Hinv) as H.
  unfold bind. destruct (V7.merge parsed_output c) as [[[]|e] c']; simpl in *;
    [|exact H].
  unfold V7.build_result. now destruct (int _).
Qed.

Lemma shape_reachable (docs : list dict) :
  shape_ok (device_states (V7.run_commands docs V7.init)) = true.
Proof.
  apply (run_commands_keeps (fun d => shape_ok d = true)).
  - intros; apply set_field_keeps_shape.
  - intros; now apply set_plain_keeps_shape.
  - reflexivity.
Qed.

(** C1, as the code has it.  Whatever the documents are, after each merge
    every dimmable entry is still a record with the fields [state] and
    [intensity] and the servo entry a record with [direction] and
    [degrees].  The invariant on the values (an integer intensity that is
    positive exactly when the state is "on"; integer degrees in [0,180]; a
    direction among clock, anti, none) is kept by every sequence of
    documents that supply in-range values: the merge copies the values of
    [device_states], [servo_motor_angle] and [servo_motor_direction]
    without clamping or validation, while the [light_intensity] pass
    derives the state from the intensity it stores. *)
Theorem invariant_under_in_range_documents :
  (forall docs : list dict,
      shape_ok (device_states (V7.run_commands docs V7.init)) = true)
  /\ (forall docs : list dict,
      forallb in_range_doc docs = true ->
      store_inv (device_states (V7.run_commands docs V7.init)) = true).
Proof.
  split; [exact shape_reachable|].
  intros docs. generalize V7.init (eq_refl : store_inv (device_states V7.init) = true).
  induction docs as [|doc docs IH]; simpl; intros c Hinv Hdocs; [exact Hinv|].
  apply andb_prop in Hdocs as [Hdoc Hdocs].
  apply IH; [|exact Hdocs]. now apply parse_command_inv.
Qed.

Lemma invariant_under_in_range_documents_witness :
  let docs :=
    [ document (VDict [("kitchen light", VStr "on")])
        (VDict [("room 2 light", VStr "75%")])
        (VStr "90") (VStr "clock") (VInt 0) ] in
  forallb in_range_doc docs = true
  /\ store_inv (device_states (V7.run_commands docs V7.init)) = true.
Proof.
  split; [reflexivity|].
  apply (proj2 invariant_under_in_range_documents). reflexivity.
Defined.

(** C1 as stated fails.  The ordinary command that switches a dimmable
    light on by its bare token leaves it on with intensity 0; an angle of
    200 and a direction "sideways" are stored as they come. *)
Lemma invariant_broken_by_merge :
  store_inv (device_states (V7.run_commands
    [ states_only (VDict [("room 2 light", VStr "on")]) ] V7.init)) = false
  /\ store_inv (device_states (V7.run_commands
    [ angle_only (VInt 200) ] V7.init)) = false
  /\ store_inv (device_states (V7.run_commands
    [ direction_only (VStr "sideways") ] V7.init)) = false
  /\ dict_get "room 2 light" (device_states (V7.run_commands
       [ states_only (VDict [("room 2 light", VStr "on")]) ] V7.init))
     = Some (VDict [("state", VStr "on"); ("intensity", VInt 0)]).
Proof. repeat split; vm_compute; reflexivity. Qed.

(** The merge of a document that carries nothing but one intensity. *)
Lemma parse_intensity_only (light : string) (v : value) (c : controller) :
  snd (V7.parse_command (intensity_only light v) c)
  = match V7.update_intensity light v c with
    | (Ok _, c') => c'
    | (Raise e, c') =>
        mkController (device_states c') (log c' ++ [CommandParsingError e])
    end.
Proof.
  cbv -[V7.update_intensity app].
  destruct (V7.update_intensity light v c) as [[[]|e] c']; reflexivity.
Qed.

(** The merge of a document that carries nothing but a servo angle. *)
Lemma parse_angle_only (v : value) (c : controller) :
  snd (V7.parse_command (angle_only v) c)
  = match V7.update_servo_angle v c with
    | (Ok _, c') => c'
    | (Raise e, c') =>
        mkController (device_states c') (log c' ++ [CommandParsingError e])
    end.
Proof.
  cbv -[V7.update_servo_angle app].
  destruct (V7.update_servo_angle v c) as [[[]|e] c']; reflexivity.
Qed.

Lemma update_servo_angle_ok (v : value) (n : Z) (d : dict) (c : controller) :
  V7.servo_angle_int v = Ok n ->
  dict_get "Servo motor" (device_states c) = Some (VDict d) ->
  V7.update_servo_angle v c
  = (Ok tt,
     mkController
       (dict_set "Servo motor" (VDict (dict_set "degrees" (VInt n) d)) (device_states c))
       (log c)).
Proof.
  intros Hn Hdev.
  assert (H : try_except
                (n <- lift (V7.servo_angle_int v) ;;
                 set_field "Servo motor" "degrees" (VInt n))
                is_value_or_type_error
                (fun _ => logging_error (InvalidServoAngle v)) c
              = (Ok tt,
                 mkController
                   (dict_set "Servo motor" (VDict (dict_set "degrees" (VInt n) d))
                      (device_states c))
                   (log c))).
  { unfold try_except, bind, lift. rewrite Hn.
    now rewrite (set_field_spec _ _ _ _ _ Hdev). }
  destruct v; try exact H. discriminate Hn.
Qed.

(** C2, as the code has it.  The merge stores the integer that [int]
    returns, without clamping.  For a dimmable light and a value of the
    [light_intensity] map that [int] accepts as [n] once trailing percent
    signs are removed, the entry gets intensity [n] and state "on" when
    [n > 0], "off" otherwise.  For a [servo_motor_angle] whose text, with a
    trailing degree sign removed, [int] accepts as [n], the servo gets
    degrees [n]. *)
Theorem merge_stores_parsed_integer :
  (forall (light : string) (v : value) (n : Z) (d : dict) (c : controller),
      V7.is_dimmable light = true ->
      dict_get light (device_states c) = Some (VDict d) ->
      int (V7.strip_percent v) = Ok n ->
      device_states (snd (V7.parse_command (intensity_only light v) c))
      = dict_set light
          (VDict (dict_set "state" (VStr (if n >? 0 then "on" else "off"))
                    (dict_set "intensity" (VInt n) d)))
          (device_states c))
  /\ (forall (v : value) (n : Z) (d : dict) (c : controller),
      dict_get "Servo motor" (device_states c) = Some (VDict d) ->
      V7.servo_angle_int v = Ok n ->
      device_states (snd (V7.parse_command (angle_only v) c))
      = dict_set "Servo motor" (VDict (dict_set "degrees" (VInt n) d))
          (device_states c)).
Proof.
  split.
  - intros light v n d c Hdim Hdev Hint.
    rewrite parse_intensity_only.
    now rewrite (update_intensity_ok _ _ _ _ _ Hdim Hint Hdev).
  - intros v n d c Hdev Hn.
    rewrite parse_angle_only.
    now rewrite (update_servo_angle_ok _ _ _ _ Hn Hdev).
Qed.

Lemma merge_stores_parsed_integer_witness :
  device_states (snd (V7.parse_command
    (intensity_only "room 2 light" (VInt 150)) V7.init))
  = dict_set "room 2 light"
      (VDict (dict_set "state" (VStr "on")
                (dict_set "intensity" (VInt 150)
                   [("state", VStr "off"); ("intensity", VInt 0)])))
      V7.initial_device_states
  /\ device_states (snd (V7.parse_command
       (angle_only (VStr two_hundred_degrees)) V7.init))
     = dict_set "Servo motor"
         (VDict (dict_set "degrees" (VInt 200)
                   [("direction", VStr "none"); ("degrees", VInt 0)]))
         V7.initial_device_states.
Proof.
  split.
  - apply (proj1 merge_stores_parsed_integer "room 2 light" (VInt 150) 150);
      reflexivity.
  - apply (proj2 merge_stores_parsed_integer (VStr two_hundred_degrees) 200);
      reflexivity.
Defined.

(** C2 as stated fails: intensity 150 is stored as 150, not 100, and the
    angle "200" with a degree sign is stored as 200, not 180. *)
Lemma intensity_and_degrees_not_clamped :
  (exists d,
     dict_get "room 2 light" (device_states (snd (V7.parse_command
       (intensity_only "room 2 light" (VInt 150)) V7.init)))
     = Some (VDict d)
     /\ dict_get "intensity" d = Some (VInt 150)
     /\ dict_get "intensity" d <> Some (VInt (clamp 0 100 150)))
  /\ (exists d,
     dict_get "Servo motor" (device_states (snd (V7.parse_command
       (angle_only (VStr two_hundred_degrees)) V7.init)))
     = Some (VDict d)
     /\ dict_get "degrees" d = Some (VInt 200)
     /\ dict_get "degrees" d <> Some (VInt (clamp 0 180 200))).
Proof.
  split.
  - eexists. split; [vm_compute; reflexivity|].
    split; [reflexivity | discriminate].
  - eexists. split; [vm_compute; reflexivity|].
    split; [reflexivity | discriminate].
Qed.

(** The merge of a document that carries nothing but a servo direction. *)
Lemma parse_direction_only (v : value) (c : controller) :
  snd (V7.parse_command (direction_only v) c)
  = match V7.update_servo_direction v c with
    | (Ok _, c') => c'
    | (Raise e, c') =>
        mkController (device_states c') (log c' ++ [CommandParsingError e])
    end.
Proof.
  cbv -[V7.update_servo_direction app].
  destruct (V7.update_servo_direction v c) as [[[]|e] c']; reflexivity.
Qed.

(** C3, as the code has it.  The merge does not validate a direction: a
    top-level [servo_motor_direction] other than null becomes the stored
    direction whatever it is, and so does the [direction] field of the
    servo's record in [device_states]; the previous direction is retained
    only when none is supplied (null at top level, no [direction] field in
    the record). *)
Theorem direction_stored_as_supplied :
  (forall (v : value) (d : dict) (c : controller),
      v <> VNone ->
      dict_get "Servo motor" (device_states c) = Some (VDict d) ->
      device_states (snd (V7.parse_command (direction_only v) c))
      = dict_set "Servo motor" (VDict (dict_set "direction" v d)) (device_states c))
  /\ (forall c : controller,
      device_states (snd (V7.parse_command (direction_only VNone) c))
      = device_states c)
  /\ (forall (st d : dict) (dir deg : value) (c : controller),
      dict_get "Servo motor" (device_states c) = Some (VDict d) ->
      dict_get "direction" d = Some dir ->
      dict_get "degrees" d = Some deg ->
      V7.update_device "Servo motor" (VDict st) c
      = (Ok tt,
         mkController
           (dict_set "Servo motor"
              (VDict (dict_set "degrees" (dict_get_default "degrees" deg st)
                        (dict_set "direction" (dict_get_default "direction" dir st) d)))
              (device_states c))
           (log c))).
Proof.
  split; [|split].
  - intros v d c Hv Hdev. rewrite parse_direction_only.
    assert (H : V7.update_servo_direction v c
                = set_field "Servo motor" "direction" v c)
      by (destruct v; [contradiction|reflexivity..]).
    now rewrite H, (set_field_spec _ _ _ _ _ Hdev).
  - intros c. now rewrite parse_direction_only.
  - intros st d dir deg c Hdev Hdir Hdeg.
    unfold V7.update_device. rewrite bind_has_device.
    assert (Hmem : dict_mem "Servo motor" (device_states c) = true)
      by (apply dict_mem_get; eauto).
    rewrite Hmem.
    change (V7.is_dimmable "Servo motor") with false.
    change (V7.is_servo "Servo motor") with true. cbv iota.
    exact (update_two_fields "Servo motor" "direction" "degrees"
             (fun old => dict_get_default "direction" old st)
             (fun old => dict_get_default "degrees" old st)
             d dir deg c Hdev Hdir Hdeg eq_refl).
Qed.

Lemma direction_stored_as_supplied_witness :
  device_states (snd (V7.parse_command
    (direction_only (VStr "sideways")) V7.init))
  = dict_set "Servo motor"
      (VDict (dict_set "direction" (VStr "sideways")
                [("direction", VStr "none"); ("degrees", VInt 0)]))
      V7.initial_device_states.
Proof.
  apply (proj1 direction_stored_as_supplied (VStr "sideways"));
    [discriminate | reflexivity].
Defined.

(** C3 as stated fails: the unrecognized direction "sideways" replaces the
    stored direction "none", by the top-level field and by the record. *)
Lemma unrecognized_direction_stored :
  (exists d,
     dict_get "Servo motor" (device_states (snd (V7.parse_command
       (direction_only (VStr "sideways")) V7.init))) = Some (VDict d)
     /\ dict_get "direction" d = Some (VStr "sideways")
     /\ dict_get "direction" d <> Some (VStr "none")
     /\ is_direction (VStr "sideways") = false)
  /\ (exists d,
     dict_get "Servo motor" (device_states (snd (V7.parse_command
       (states_only (VDict [("Servo motor", VDict [("direction", VStr "sideways")])])) V7.init)))
     = Some (VDict d)
     /\ dict_get "direction" d = Some (VStr "sideways")).
Proof.
  split.
  - eexists. split; [vm_compute; reflexivity|].
    split; [reflexivity | split; [discriminate | reflexivity]].
  - eexists. split; [vm_compute; reflexivity|]. reflexivity.
Qed.

(** C4, as the code has it.  For a registered device that is neither a
    dimmable light nor the servo, the merge stores the update value as it
    is, whatever its shape: the bare token "on" or "off" becomes the state,
    and so does any other value, a record with a nested [state] field
    included.  [parse_json_response] of merged_app.py does the same for
    every registered device. *)
Theorem binary_value_stored_as_is :
  (forall (dev : string) (v : value) (c : controller),
      dict_mem dev (device_states c) = true ->
      V7.is_dimmable dev = false ->
      V7.is_servo dev = false ->
      V7.update_device dev v c
      = (Ok tt, mkController (dict_set dev v (device_states c)) (log c))
      /\ dict_get dev (device_states (snd (V7.update_device dev v c))) = Some v)
  /\ (forall (dev : string) (v : value) (c : controller),
      dict_mem dev (device_states c) = true ->
      String.eqb dev "chatbot message" = false ->
      Merged.update_device dev v c
      = (Ok tt, mkController (dict_set dev v (device_states c)) (log c))
      /\ dict_get dev (device_states (snd (Merged.update_device dev v c))) = Some v).
Proof.
  split.
  - intros dev v c Hmem Hdim Hservo.
    assert (H : V7.update_device dev v c
                = (Ok tt, mkController (dict_set dev v (device_states c)) (log c))).
    { unfold V7.update_device. rewrite bind_has_device, Hmem, Hdim, Hservo.
      reflexivity. }
    split; [exact H|]. rewrite H. apply dict_get_set_same.
  - intros dev v c Hmem Hne.
    assert (H : Merged.update_device dev v c
                = (Ok tt, mkController (dict_set dev v (device_states c)) (log c))).
    { unfold Merged.update_device. rewrite bind_has_device, Hmem, Hne.
      reflexivity. }
    split; [exact H|]. rewrite H. apply dict_get_set_same.
Qed.

Lemma binary_value_stored_as_is_witness :
  V7.update_device "TV" (VStr "on") V7.init
  = (Ok tt, mkController (dict_set "TV" (VStr "on") V7.initial_device_states) [])
  /\ dict_get "TV" (device_states (snd (V7.update_device "TV" (VStr "on") V7.init)))
     = Some (VStr "on").
Proof.
  apply (proj1 binary_value_stored_as_is "TV" (VStr "on") V7.init); reflexivity.
Defined.

(** C4 as stated fails: a record with a nested [state] is not reduced to
    its token, the record itself becomes the stored state; a number is not
    ignored either. *)
Lemma nested_state_not_extracted :
  let tv doc := dict_get "TV" (device_states (snd (V7.parse_command doc V7.init))) in
  tv (states_only (VDict [("TV", VDict [("state", VStr "on")])]))
  = Some (VDict [("state", VStr "on")])
  /\ tv (states_only (VDict [("TV", VDict [("state", VStr "on")])]))
     <> Some (VStr "on")
  /\ tv (states_only (VDict [("TV", VInt 5)])) = Some (VInt 5)
  /\ tv (states_only (VDict [("TV", VInt 5)])) <> Some (VStr "off")
  /\ dict_get "room 1 fan" (device_states (snd (Merged.parse_command
       (VDict [("room 1 fan", VDict [("state", VStr "on")])]) Merged.init)))
     = Some (VDict [("state", VStr "on")]).
Proof.
  repeat split; try (vm_compute; reflexivity); vm_compute; discriminate.
Qed.

Lemma parse_command_after_merge (parsed_output : dict) (c c' : controller) :
  V7.merge parsed_output c = (Ok tt, c') ->
  V7.parse_command parsed_output c
  = match int (dict_get_default "delay_seconds" (VInt 0) parsed_output) with
    | Ok n =>
        (Some (V7.mkResult (device_states c')
                 (dict_get_default "chatbot_message" (VStr "Command processed")
                    parsed_output) n), c')
    | Raise e =>
        (None, mkController (device_states c') (log c' ++ [CommandParsingError e]))
    end.
Proof.
  intros Hm. unfold V7.parse_command, V7.parse_command_body, bind. rewrite Hm.
  unfold V7.build_result. now destruct (int _).
Qed.

Lemma v6_loop_returns (ds : dict) (c : controller) :
  exists c', for_each ds V6.update_device c = (Ok tt, c').
Proof.
  revert c. induction ds as [|[k v] ds IH]; simpl; intros c.
  - now exists c.
  - unfold bind. unfold V6.update_device at 1. rewrite bind_has_device.
    destruct (dict_mem k (device_states c)); simpl; apply IH.
Qed.

(** C5, as the code has it.  In app_version_7_intensity.py the delay is
    [int] of the [delay_seconds] field: when the updates of the table went
    through, a missing field gives delay 0 and a value that [int] accepts
    gives that integer, while a value that [int] rejects makes
    [parse_command] log the exception and return [None], upon which the
    handler answers with status error.  In app_version_6_delay.py
    [parse_command] returns the field as it came and the handler's own
    [int] raises out of the handler. *)
Theorem delay_seconds_through_int :
  (forall (parsed_output : dict) (c c' : controller),
      V7.merge parsed_output c = (Ok tt, c') ->
      dict_get "delay_seconds" parsed_output = None ->
      exists r, V7.parse_command parsed_output c = (Some r, c')
                /\ V7.delay_seconds r = 0)
  /\ (forall (parsed_output : dict) (c c' : controller) (v : value) (n : Z),
      V7.merge parsed_output c = (Ok tt, c') ->
      dict_get "delay_seconds" parsed_output = Some v ->
      int v = Ok n ->
      exists r, V7.parse_command parsed_output c = (Some r, c')
                /\ V7.delay_seconds r = n)
  /\ (forall (parsed_output : dict) (c c' : controller) (v : value) (e : exn),
      V7.merge parsed_output c = (Ok tt, c') ->
      dict_get "delay_seconds" parsed_output = Some v ->
      int v = Raise e ->
      V7.parse_command parsed_output c
      = (None, mkController (device_states c') (log c' ++ [CommandParsingError e]))
      /\ fst (V7.receive_voice_command parsed_output c) = (V7.Error, None))
  /\ (forall (parsed_output ds : dict) (c : controller) (v : value) (e : exn),
      dict_get_default "device_states" (VDict []) parsed_output = VDict ds ->
      dict_get "delay_seconds" parsed_output = Some v ->
      int v = Raise e ->
      fst (V6.receive_voice_command parsed_output c) = V6.Escaped e).
Proof.
  split; [|split; [|split]].
  - intros parsed_output c c' Hm Hd.
    rewrite (parse_command_after_merge _ _ _ Hm).
    unfold dict_get_default. rewrite Hd. simpl. eauto.
  - intros parsed_output c c' v n Hm Hd Hn.
    rewrite (parse_command_after_merge _ _ _ Hm).
    unfold dict_get_default. rewrite Hd, Hn. eauto.
  - intros parsed_output c c' v e Hm Hd He.
    unfold V7.receive_voice_command.
    rewrite (parse_command_after_merge _ _ _ Hm).
    unfold dict_get_default. now rewrite Hd, He.
  - intros parsed_output ds c v e Hds Hd He.
    unfold V6.receive_voice_command, V6.parse_command, V6.parse_command_body.
    rewrite Hds. unfold bind at 1. cbn [items ret].
    unfold bind at 1.
    destruct (v6_loop_returns ds c) as [c' ->]. cbn [ret V6.delay_seconds].
    unfold dict_get_default. now rewrite Hd, He.
Qed.

Lemma delay_seconds_through_int_witness :
  V7.parse_command (delay_only (VStr "soon")) V7.init
  = (None, mkController V7.initial_device_states [CommandParsingError ValueError])
  /\ fst (V7.receive_voice_command (delay_only (VStr "soon")) V7.init)
     = (V7.Error, None).
Proof.
  apply (proj1 (proj2 (proj2 delay_seconds_through_int))
           (delay_only (VStr "soon")) V7.init V7.init (VStr "soon") ValueError);
    reflexivity.
Defined.

(** C5 as stated fails: for the delay "soon" the merge does not fall back
    to 0; app_version_7_intensity.py returns [None] to the handler, which
    answers with an error and starts no sender, and in
    app_version_6_delay.py the [ValueError] leaves the handler. *)
Lemma invalid_delay_reported :
  fst (V7.parse_command (delay_only (VStr "soon")) V7.init) = None
  /\ fst (V7.receive_voice_command (delay_only (VStr "soon")) V7.init)
     = (V7.Error, None)
  /\ fst (V6.receive_voice_command (document_v6 (VDict []) (VStr "soon")) V6.init)
     = V6.Escaped ValueError.
Proof. repeat split; vm_compute; reflexivity. Qed.

(** C8, as the code has it.  A value of the [light_intensity] map that
    [int] rejects is skipped: for [ValueError] and [TypeError] the loop
    body logs the value and returns, with the table untouched; whatever
    the exception, the merge of a document that carries only that value
    leaves the table as it was, adds one entry to the log, and
    [parse_command] returns to its caller.  An intensity carried by the
    light's record in [device_states] is not coerced at all: it is stored
    as supplied. *)
Theorem malformed_map_intensity_skipped :
  (forall (light : string) (v : value) (e : exn) (c : controller),
      V7.is_dimmable light = true ->
      int (V7.strip_percent v) = Raise e ->
      (is_value_or_type_error e = true ->
       V7.update_intensity light v c
       = (Ok tt, mkController (device_states c)
                   (log c ++ [InvalidIntensity (V7.strip_percent v)])))
      /\ device_states (snd (V7.parse_command
           (intensity_only light v) c)) = device_states c
      /\ exists entry,
           log (snd (V7.parse_command (intensity_only light v) c))
           = (log c ++ [entry])%list)
  /\ (forall (light : string) (st d : dict) (s0 i0 : value) (c : controller),
      V7.is_dimmable light = true ->
      dict_get light (device_states c) = Some (VDict d) ->
      dict_get "state" d = Some s0 ->
      dict_get "intensity" d = Some i0 ->
      V7.update_device light (VDict st) c
      = (Ok tt,
         mkController
           (dict_set light
              (VDict (dict_set "intensity" (dict_get_default "intensity" i0 st)
                        (dict_set "state" (dict_get_default "state" s0 st) d)))
              (device_states c))
           (log c))).
Proof.
  split.
  - intros light v e c Hdim Hint.
    pose proof (update_intensity_rejected light v e c Hdim Hint) as H.
    split; [|split].
    + intros He. now rewrite He in H.
    + rewrite parse_intensity_only, H.
      now destruct (is_value_or_type_error e).
    + rewrite parse_intensity_only, H.
      destruct (is_value_or_type_error e); simpl; eauto.
  - intros light st d s0 i0 c Hdim Hdev Hs0 Hi0.
    unfold V7.update_device. rewrite bind_has_device.
    assert (Hmem : dict_mem light (device_states c) = true)
      by (apply dict_mem_get; eauto).
    rewrite Hmem, Hdim.
    unfold bind at 1. rewrite (get_device_spec _ _ _ Hdev). cbn [is_dict].
    exact (update_two_fields light "state" "intensity"
             (fun old => dict_get_default "state" old st)
             (fun old => dict_get_default "intensity" old st)
             d s0 i0 c Hdev Hs0 Hi0 eq_refl).
Qed.

Lemma malformed_map_intensity_skipped_witness :
  V7.update_intensity "room 2 light" (VStr "abc%") V7.init
  = (Ok tt, mkController V7.initial_device_states [InvalidIntensity (VStr "abc")]).
Proof.
  apply (proj1 malformed_map_intensity_skipped
           "room 2 light" (VStr "abc%") ValueError V7.init); reflexivity.
Defined.

(** C8 as stated fails: the intensity "abc%" carried by the record of
    "room 2 light" in [device_states] replaces the stored intensity 0, and
    nothing is logged. *)
Lemma malformed_record_intensity_stored :
  let doc :=
    states_only (VDict [("room 2 light", VDict [("intensity", VStr "abc%")])]) in
  int (V7.strip_percent (VStr "abc%")) = Raise ValueError
  /\ dict_get "room 2 light" (device_states V7.init)
     = Some (VDict [("state", VStr "off"); ("intensity", VInt 0)])
  /\ dict_get "room 2 light" (device_states (snd (V7.parse_command doc V7.init)))
     = Some (VDict [("state", VStr "off"); ("intensity", VStr "abc%")])
  /\ log (snd (V7.parse_command doc V7.init)) = [].
Proof. repeat split. Qed.

(* ================================================================== *)
(** ** The frame written by the sender against the specified frame *)
(* ================================================================== *)

Lemma needs_quotes_spec (s : string) :
  no_line_break s = true -> Csv.needs_quotes s = has_delimiter_or_quote s.
Proof.
  unfold no_line_break.
  induction s as [|c s IH]; [reflexivity|].
  cbn [all_chars Csv.needs_quotes has_delimiter_or_quote].
  unfold not_line_break at 1, Csv.is_special, Csv.delimiter, Csv.quotechar.
  destruct (Ascii.eqb c (chr 13)); [discriminate|].
  destruct (Ascii.eqb c (chr 10)); [discriminate|].
  cbn [negb andb]. intros Hs. rewrite (IH Hs).
  now rewrite !orb_false_r.
Qed.

Lemma double_quotes_spec (s : string) : Csv.double_quotes s = escape_quotes s.
Proof.
  induction s as [|c s IH]; simpl; [reflexivity|]. now rewrite IH.
Qed.

Lemma write_field_spec (s : string) :
  no_line_break s = true -> Csv.write_field s = quoted s.
Proof.
  intros H. unfold Csv.write_field, quoted.
  now rewrite (needs_quotes_spec s H), double_quotes_spec.
Qed.

Lemma join_fields_spec (fields : list string) :
  forallb no_line_break fields = true -> Csv.join_fields fields = record fields.
Proof.
  unfold record.
  induction fields as [|f fields IH]; [reflexivity|].
  intros H. simpl in H. apply andb_prop in H as [Hf Hfs].
  destruct fields as [|g fields].
  - simpl. now apply write_field_spec.
  - change (Csv.join_fields (f :: g :: fields))
      with (Csv.write_field f ++ String Csv.delimiter (Csv.join_fields (g :: fields))).
    rewrite (IH Hfs), (write_field_spec f Hf). reflexivity.
Qed.

(** *** [strip] on a text with clean ends *)

Section Strip.
Variable p : ascii -> bool.

Lemma rstrip_with_all (s : string) :
  all_chars p s = true -> rstrip_with p s = EmptyString.
Proof.
  induction s as [|c s IH]; simpl; [reflexivity|].
  intros H. apply andb_prop in H as [Hc Hs]. now rewrite (IH Hs), Hc.
Qed.

Lemma rstrip_with_app (s t : string) :
  s <> EmptyString -> last_fails p s = true -> all_chars p t = true ->
  rstrip_with p (s ++ t) = s.
Proof.
  induction s as [|c s IH]; [congruence|].
  intros _ Hs Ht. destruct s as [|c' s'].
  - simpl in *. apply negb_true_iff in Hs.
    now rewrite (rstrip_with_all t Ht), Hs.
  - change (last_fails p (String c (String c' s')))
      with (last_fails p (String c' s')) in Hs.
    change (rstrip_with p (String c (String c' s') ++ t))
      with (match rstrip_with p (String c' s' ++ t) with
            | EmptyString => if p c then EmptyString else String c EmptyString
            | r => String c r
            end).
    rewrite IH; [reflexivity | discriminate | exact Hs | exact Ht].
Qed.

Lemma lstrip_with_clean (s : string) :
  match s with
  | EmptyString => true
  | String c _ => negb (p c)
  end = true ->
  lstrip_with p s = s.
Proof.
  destruct s as [|c s]; [reflexivity|]. simpl.
  intros H. apply negb_true_iff in H. now rewrite H.
Qed.

Lemma last_fails_app (s t : string) :
  t <> EmptyString -> last_fails p (s ++ t) = last_fails p t.
Proof.
  intros Ht. induction s as [|c s IH]; [reflexivity|].
  simpl. destruct (s ++ t) eqn:E; [|exact IH].
  destruct s; simpl in E; [contradiction | discriminate].
Qed.

End Strip.

Lemma all_chars_app (p : ascii -> bool) (s t : string) :
  all_chars p (s ++ t) = all_chars p s && all_chars p t.
Proof.
  induction s as [|c s IH]; simpl; [reflexivity|].
  now rewrite IH, andb_assoc.
Qed.

Lemma all_chars_impl (p q : ascii -> bool) (s : string) :
  (forall c, p c = true -> q c = true) ->
  all_chars p s = true -> all_chars q s = true.
Proof.
  intros Hpq. induction s as [|c s IH]; simpl; [reflexivity|].
  intros H. apply andb_prop in H as [Hc Hs]. now rewrite (Hpq c Hc), IH.
Qed.

Lemma all_chars_last_fails (p : ascii -> bool) (s : string) :
  all_chars (fun c => negb (p c)) s = true -> last_fails p s = true.
Proof.
  induction s as [|c s IH]; [reflexivity|].
  cbn [all_chars]. intros H. apply andb_prop in H as [Hc Hs].
  destruct s; [exact Hc | exact (IH Hs)].
Qed.

Lemma last_fails_cons (p : ascii -> bool) (c : ascii) (s : string) :
  s <> EmptyString -> last_fails p (String c s) = last_fails p s.
Proof. destruct s; [congruence | reflexivity]. Qed.

(** *** The decimal text of an integer *)

Lemma digit_char_is_int_char (d : Z) :
  0 <= d < 10 -> is_int_char (digit_char d) = true.
Proof.
  intros H.
  assert (E : d = 0 \/ d = 1 \/ d = 2 \/ d = 3 \/ d = 4 \/ d = 5 \/ d = 6
              \/ d = 7 \/ d = 8 \/ d = 9) by lia.
  repeat (destruct E as [->|E]; [reflexivity|]). subst d. reflexivity.
Qed.

Lemma digits_fuel_chars (fuel : nat) (n : Z) (acc : string) :
  all_chars is_int_char acc = true ->
  all_chars is_int_char (digits_fuel fuel n acc) = true.
Proof.
  revert n acc. induction fuel as [|fuel IH]; intros n acc Hacc; [exact Hacc|].
  cbn [digits_fuel].
  assert (H : all_chars is_int_char (String (digit_char (n mod 10)) acc) = true).
  { cbn [all_chars]. rewrite Hacc, digit_char_is_int_char; [reflexivity|].
    apply Z.mod_pos_bound. lia. }
  destruct (n <? 10); [exact H | now apply IH].
Qed.

Lemma string_of_int_chars (n : Z) :
  all_chars is_int_char (string_of_int n) = true.
Proof.
  unfold string_of_int.
  assert (H : all_chars is_int_char
                (digits_fuel (S (Z.to_nat (Z.log2 (Z.abs n)))) (Z.abs n) EmptyString)
              = true) by now apply digits_fuel_chars.
  destruct (n <? 0); [|exact H].
  cbn [all_chars]. now rewrite H.
Qed.

Lemma int_char_not (c k : ascii) :
  is_int_char k = false -> is_int_char c = true -> Ascii.eqb c k = false.
Proof.
  intros Hk Hc. destruct (Ascii.eqb c k) eqn:E; [|reflexivity].
  apply Ascii.eqb_eq in E. subst k. congruence.
Qed.

Lemma int_char_not_space (c : ascii) :
  is_int_char c = true -> negb (is_space c) = true.
Proof.
  unfold is_int_char, is_space. intros H.
  apply orb_prop in H as [H|H].
  - apply andb_prop in H as [H1 H2].
    apply Z.leb_le in H1, H2. apply negb_true_iff.
    repeat (apply orb_false_intro);
      try (apply andb_false_iff);
      try (apply Z.eqb_neq; lia).
    + right. apply Z.leb_gt. lia.
    + right. apply Z.leb_gt. lia.
  - apply Ascii.eqb_eq in H. subst c. reflexivity.
Qed.

Lemma string_of_int_no_line_break (n : Z) :
  no_line_break (string_of_int n) = true.
Proof.
  apply (all_chars_impl is_int_char); [|apply string_of_int_chars].
  intros c H. unfold not_line_break.
  now rewrite !(fun k Hk => int_char_not c k Hk H) by reflexivity.
Qed.

Lemma string_of_int_ends_clean (n : Z) : ends_clean (string_of_int n) = true.
Proof.
  apply all_chars_last_fails.
  apply (all_chars_impl is_int_char); [|apply string_of_int_chars].
  apply int_char_not_space.
Qed.

(** *** The message built from a row of at least two fields *)

Lemma write_field_nonempty_start (f rest : string) (c0 : ascii) :
  starts_clean f = true -> is_space c0 = false ->
  starts_clean (Csv.write_field f ++ String c0 rest) = true.
Proof.
  intros Hf Hc0. unfold Csv.write_field.
  destruct (Csv.needs_quotes f); [reflexivity|].
  destruct f; simpl; [now rewrite Hc0 | exact Hf].
Qed.

Lemma write_field_end (f : string) (c0 : ascii) :
  ends_clean f = true -> is_space c0 = false ->
  last_fails is_space (String c0 (Csv.write_field f)) = true.
Proof.
  intros Hf Hc0. unfold Csv.write_field.
  destruct (Csv.needs_quotes f).
  - rewrite last_fails_cons by discriminate.
    rewrite last_fails_cons by (destruct (Csv.double_quotes f); discriminate).
    rewrite last_fails_app by discriminate. reflexivity.
  - destruct f; [simpl; now rewrite Hc0|].
    rewrite last_fails_cons by discriminate. exact Hf.
Qed.

Lemma message_of_line (x : string) :
  x <> EmptyString -> starts_clean x = true -> last_fails is_space x = true ->
  Frame.message_of (x ++ Csv.lineterminator)
  = "START" ++ x ++ "END" ++ String (chr 10) EmptyString.
Proof.
  intros Hne Hstart Hend. unfold Frame.message_of, strip.
  rewrite lstrip_with_clean.
  - rewrite rstrip_with_app; [reflexivity | exact Hne | exact Hend | reflexivity].
  - destruct x; [congruence | exact Hstart].
Qed.

Lemma row_message (f g : string) (rest : list string) :
  last_fails is_space (Csv.join_fields (f :: g :: rest)) = true ->
  starts_clean f = true ->
  forallb no_line_break (f :: g :: rest) = true ->
  Frame.message_of (Csv.writerow_text (f :: g :: rest)) = frame (f :: g :: rest).
Proof.
  intros Hend Hstart Hlb.
  assert (Hrow : Csv.writerow_text (f :: g :: rest)
                 = Csv.join_fields (f :: g :: rest) ++ Csv.lineterminator)
    by (destruct f as [|? ?]; reflexivity).
  rewrite Hrow, message_of_line.
  - unfold frame. now rewrite join_fields_spec.
  - change (Csv.join_fields (f :: g :: rest))
      with (Csv.write_field f ++ String Csv.delimiter (Csv.join_fields (g :: rest))).
    destruct (Csv.write_field f); discriminate.
  - change (Csv.join_fields (f :: g :: rest))
      with (Csv.write_field f ++ String Csv.delimiter (Csv.join_fields (g :: rest))).
    now apply write_field_nonempty_start.
  - exact Hend.
Qed.

Lemma row_end_two (f g : string) :
  ends_clean g = true -> last_fails is_space (Csv.join_fields [f; g]) = true.
Proof.
  intros Hg.
  change (Csv.join_fields [f; g])
    with (Csv.write_field f ++ String Csv.delimiter (Csv.write_field g)).
  rewrite last_fails_app by discriminate. now apply write_field_end.
Qed.

Lemma row_end_three (f g h : string) :
  ends_clean h = true -> last_fails is_space (Csv.join_fields [f; g; h]) = true.
Proof.
  intros Hh.
  change (Csv.join_fields [f; g; h])
    with (Csv.write_field f
          ++ String Csv.delimiter
               (Csv.write_field g ++ String Csv.delimiter (Csv.write_field h))).
  rewrite last_fails_app by discriminate.
  rewrite last_fails_cons by (destruct (Csv.write_field g); discriminate).
  rewrite last_fails_app by discriminate. now apply write_field_end.
Qed.

(** *** One line *)

Lemma is_single_line_app (s : string) :
  all_chars not_line_feed s = true ->
  is_single_line (s ++ String (chr 10) EmptyString) = true.
Proof.
  induction s as [|c s IH]; [reflexivity|].
  cbn [all_chars]. intros H. apply andb_prop in H as [Hc Hs].
  change (is_single_line (String c s ++ String (chr 10) EmptyString))
    with (is_single_line (String c (s ++ String (chr 10) EmptyString))).
  destruct (s ++ String (chr 10) EmptyString) eqn:E.
  - destruct s; discriminate E.
  - change (negb (Ascii.eqb c (chr 10)) && is_single_line (String a s0) = true).
    unfold not_line_feed in Hc. rewrite Hc. exact (IH Hs).
Qed.

Lemma quoted_no_line_feed (f : string) :
  no_line_break f = true -> all_chars not_line_feed (quoted f) = true.
Proof.
  intros H.
  assert (Hf : all_chars not_line_feed f = true).
  { apply (all_chars_impl not_line_break); [|exact H].
    intros c Hc. unfold not_line_break in Hc. now apply andb_prop in Hc as [_ ?]. }
  unfold quoted. destruct (has_delimiter_or_quote f); [|exact Hf].
  cbn [all_chars]. rewrite all_chars_app.
  assert (He : all_chars not_line_feed (escape_quotes f) = true).
  { clear H. induction f as [|c f IH]; [reflexivity|].
    cbn [all_chars] in Hf. apply andb_prop in Hf as [Hc Hf].
    cbn [escape_quotes]. destruct (Ascii.eqb c (chr 34));
      cbn [all_chars]; now rewrite ?Hc, IH. }
  now rewrite He.
Qed.

Lemma append_assoc (a b c : string) : (a ++ b) ++ c = a ++ (b ++ c).
Proof. induction a as [|x a IH]; simpl; [reflexivity | now rewrite IH]. Qed.

Lemma frame_single_line (fields : list string) :
  forallb no_line_break fields = true -> is_single_line (frame fields) = true.
Proof.
  intros H. unfold frame.
  change ("END" ++ String (chr 10) EmptyString)
    with (("END" ++ EmptyString) ++ String (chr 10) EmptyString).
  rewrite <- !append_assoc. apply is_single_line_app.
  rewrite !all_chars_app.
  assert (Hr : all_chars not_line_feed (record fields) = true).
  { unfold record. induction fields as [|f fields IH]; [reflexivity|].
    cbn [forallb] in H. apply andb_prop in H as [Hf Hfs].
    destruct fields as [|g fields].
    - now apply quoted_no_line_feed.
    - change (all_chars not_line_feed
                (quoted f ++ "," ++ String.concat "," (map quoted (g :: fields))) = true).
      rewrite !all_chars_app, (quoted_no_line_feed f Hf), (IH Hfs). reflexivity. }
  now rewrite Hr.
Qed.

Lemma send_row_two (dev state : string) :
  no_line_break dev = true -> no_line_break state = true ->
  starts_clean dev = true -> ends_clean state = true ->
  Frame.send_row [VStr dev; VStr state] = Frame.Sent (binary_frame dev state).
Proof.
  intros Hd Hs Hstart Hend. unfold Frame.send_row, binary_frame.
  cbn [Csv.writerow Csv.field_texts Csv.field_text str option_map].
  rewrite row_message; [reflexivity | now apply row_end_two | exact Hstart|].
  cbn [forallb]. now rewrite Hd, Hs.
Qed.

Lemma send_row_three (dev field : string) (n : Z) :
  no_line_break dev = true -> no_line_break field = true ->
  starts_clean dev = true ->
  Frame.send_row [VStr dev; VStr field; VInt n]
  = Frame.Sent (frame [dev; field; string_of_int n]).
Proof.
  intros Hd Hf Hstart. unfold Frame.send_row.
  cbn [Csv.writerow Csv.field_texts Csv.field_text str option_map].
  rewrite row_message; [reflexivity | | exact Hstart|].
  - apply row_end_three, string_of_int_ends_clean.
  - cbn [forallb]. now rewrite Hd, Hf, string_of_int_no_line_break.
Qed.

Lemma dimmable_name (dev : string) :
  V7.is_dimmable dev = true -> dev = "room 2 light" \/ dev = "room 3 light".
Proof.
  unfold V7.is_dimmable. intros H. apply orb_prop in H as [H|H];
    apply String.eqb_eq in H; auto.
Qed.

Lemma sent_count (table : dict) (ms : list string) :
  V7.send_device_states table = Some (ms, true) ->
  List.length ms = List.length table.
Proof.
  revert ms. induction table as [|[dev state] table IH]; simpl; intros ms.
  - now intros [= <-].
  - destruct (V7.encode dev state); try discriminate.
    destruct (V7.send_device_states table) as [[ms' ok]|]; [|discriminate].
    intros [= <- ->]. simpl. now rewrite (IH ms').
Qed.

(** C6.  For a device whose stored state has the shape of its kind, the
    sender writes the frame of the specification: START, the
    comma-separated record with the fields quoted where they hold a comma
    or a quote, END and one newline, on exactly one line.  The fields are
    taken free of line breaks, the identifier without leading and the last
    text field without trailing white space (the sender removes the line
    terminator of the CSV writer with [strip()]).
    - an on/off device: a string state, record [id,state], in all three
      application variants;
    - a dimmable light: a record with a string [state] and an integer
      [intensity], record [id,state,intensity];
    - the servo: a record with a string [direction] and integer [degrees],
      record [id,direction,degrees].
    A send cycle that succeeds writes one message per entry of the table. *)
Theorem frame_as_specified :
  (forall dev state : string,
      no_line_break dev = true -> no_line_break state = true ->
      starts_clean dev = true -> ends_clean state = true ->
      V7.encode dev (VStr state) = Frame.Sent (binary_frame dev state)
      /\ V6.encode dev (VStr state) = Frame.Sent (binary_frame dev state)
      /\ Merged.encode dev (VStr state) = Frame.Sent (binary_frame dev state)
      /\ is_single_line (binary_frame dev state) = true)
  /\ (forall (dev : string) (st : dict) (state : string) (n : Z),
      V7.is_dimmable dev = true ->
      dict_get "state" st = Some (VStr state) ->
      dict_get "intensity" st = Some (VInt n) ->
      no_line_break state = true ->
      V7.encode dev (VDict st) = Frame.Sent (dimmable_frame dev state n)
      /\ is_single_line (dimmable_frame dev state n) = true)
  /\ (forall (st : dict) (direction : string) (n : Z),
      dict_get "direction" st = Some (VStr direction) ->
      dict_get "degrees" st = Some (VInt n) ->
      no_line_break direction = true ->
      V7.encode "Servo motor" (VDict st)
      = Frame.Sent (actuator_frame "Servo motor" direction n)
      /\ is_single_line (actuator_frame "Servo motor" direction n) = true)
  /\ (forall (table : dict) (messages : list string),
      V7.send_device_states table = Some (messages, true) ->
      List.length messages = List.length table).
Proof.
  split; [|split; [|split]].
  - intros dev state Hd Hs Hstart Hend.
    pose proof (send_row_two dev state Hd Hs Hstart Hend) as H.
    repeat split; try exact H.
    apply frame_single_line. cbn [forallb]. now rewrite Hd, Hs.
  - intros dev st state n Hdim Hstate Hint Hs.
    assert (Hdev : no_line_break dev = true /\ starts_clean dev = true)
      by (destruct (dimmable_name dev Hdim) as [-> | ->]; split; reflexivity).
    destruct Hdev as [Hd Hstart]. split.
    + unfold V7.encode, subscript. rewrite Hdim, Hstate, Hint.
      now apply send_row_three.
    + apply frame_single_line. cbn [forallb].
      now rewrite Hd, Hs, string_of_int_no_line_break.
  - intros st direction n Hdir Hdeg Hs. split.
    + unfold V7.encode, subscript.
      change (V7.is_dimmable "Servo motor") with false.
      change (V7.is_servo "Servo motor") with true. cbv iota.
      rewrite Hdir, Hdeg. now apply send_row_three.
    + apply frame_single_line. cbn [forallb].
      now rewrite Hs, string_of_int_no_line_break.
  - exact sent_count.
Qed.

Lemma frame_as_specified_witness :
  (V7.encode "kitchen light" (VStr "on")
   = Frame.Sent (binary_frame "kitchen light" "on")
   /\ V6.encode "kitchen light" (VStr "on")
      = Frame.Sent (binary_frame "kitchen light" "on")
   /\ Merged.encode "kitchen light" (VStr "on")
      = Frame.Sent (binary_frame "kitchen light" "on")
   /\ is_single_line (binary_frame "kitchen light" "on") = true)
  /\ (V7.encode "room 2 light" (VDict [("state", VStr "on"); ("intensity", VInt 80)])
      = Frame.Sent (dimmable_frame "room 2 light" "on" 80)
      /\ is_single_line (dimmable_frame "room 2 light" "on" 80) = true)
  /\ (V7.encode "Servo motor" (VDict [("direction", VStr "clock"); ("degrees", VInt 90)])
      = Frame.Sent (actuator_frame "Servo motor" "clock" 90)
      /\ is_single_line (actuator_frame "Servo motor" "clock" 90) = true)
  /\ (forall messages : list string,
      V7.send_device_states V7.initial_device_states = Some (messages, true) ->
      List.length messages = 9%nat).
Proof.
  split; [|split; [|split]].
  - apply (proj1 frame_as_specified); reflexivity.
  - apply (proj1 (proj2 frame_as_specified)); reflexivity.
  - apply (proj1 (proj2 (proj2 frame_as_specified))); reflexivity.
  - intros messages H.
    exact (proj2 (proj2 (proj2 frame_as_specified)) _ _ H).
Defined.

(** The three frames of the specification's examples, and a quoted one. *)
Example frames_of_the_specification :
  binary_frame "kitchen light" "on"
  = "STARTkitchen light,onEND" ++ String (chr 10) EmptyString
  /\ dimmable_frame "room 2 light" "on" 80
     = "STARTroom 2 light,on,80END" ++ String (chr 10) EmptyString
  /\ actuator_frame "Servo motor" "clock" 90
     = "STARTServo motor,clock,90END" ++ String (chr 10) EmptyString
  /\ V7.encode "hall, left" (VStr "on")
     = Frame.Sent ("START" ++ String (chr 34) ("hall, left" ++ String (chr 34) ",onEND")
                   ++ String (chr 10) EmptyString).
Proof. repeat split. Qed.

(* ================================================================== *)
(** ** Scenarios of the specification, run on the model *)
(* ================================================================== *)

(** "update {light_intensity: {"room 2 light": "75%"}} -> room 2 light
    becomes {on: true, intensity: 75}" *)
Example scenario_intensity_75 :
  dict_get "room 2 light"
    (device_states (snd (V7.parse_command
       (intensity_only "room 2 light" (VStr "75%")) V7.init)))
  = Some (VDict [("state", VStr "on"); ("intensity", VInt 75)]).
Proof. reflexivity. Qed.

(** "initial Store all-off; update {device_states: {"kitchen light": "on"},
    delay_seconds: 0} -> one frame per registry device, with kitchen light
    as on, all others unchanged" *)
Example scenario_kitchen_light :
  V7.receive_voice_command
    (states_only (VDict [("kitchen light", VStr "on")])) V7.init
  = (V7.Success, Some V7.Immediate,
     mkController (dict_set "kitchen light" (VStr "on") V7.initial_device_states) [])
  /\ option_map (fun r => List.length (fst r))
       (V7.send_device_states
          (dict_set "kitchen light" (VStr "on") V7.initial_device_states))
     = Some 9%nat.
Proof. split; reflexivity. Qed.

(** The update {servo_motor_angle: "190", servo_motor_direction: "clock"}
    stores the angle 190 as it comes. *)
Example scenario_servo_190 :
  dict_get "Servo motor"
    (device_states (snd (V7.parse_command
       (document (VDict []) (VDict []) (VStr "190") (VStr "clock") (VInt 0)) V7.init)))
  = Some (VDict [("direction", VStr "clock"); ("degrees", VInt 190)]).
Proof. reflexivity. Qed.

(** A record stored under an on/off device is sent as an empty record:
    the sender writes a row only for a dictionary under a dimmable light or
    the servo. *)
Example record_under_plain_device :
  V7.encode "TV" (VDict [("state", VStr "on")])
  = Frame.Sent ("STARTEND" ++ String (chr 10) EmptyString).
Proof. reflexivity. Qed.

(** The [/command] endpoint is not a merge: it replaces the table by the
    request body. *)
Example direct_command_replaces_table :
  dict_keys (device_states (snd (V7.receive_direct_command
               [("TV", VStr "on")] V7.init)))
  = ["TV"].
Proof. reflexivity. Qed.

(* ================================================================== *)
(** ** The merge of the on/off variants *)
(* ================================================================== *)

Lemma dict_set_comm (k k' : string) (v w : value) (d : dict) :
  String.eqb k k' = false ->
  dict_mem k d = true -> dict_mem k' d = true ->
  dict_set k v (dict_set k' w d) = dict_set k' w (dict_set k v d).
Proof.
  intros Hne. assert (Hne' : String.eqb k' k = false) by now rewrite String.eqb_sym.
  induction d as [|[k0 v0] d IH]; [discriminate|].
  cbn [dict_mem dict_set].
  destruct (String.eqb k k0) eqn:E; destruct (String.eqb k' k0) eqn:E'.
  - apply String.eqb_eq in E, E'. subst. now rewrite String.eqb_refl in Hne.
  - intros _ _. cbn [dict_set]. now rewrite E, E'.
  - intros _ _. cbn [dict_set]. now rewrite E, E'.
  - intros Hk Hk'. cbn [dict_set]. rewrite E, E'. now rewrite IH.
Qed.

Section OverlayLaws.
Variable allowed : string -> bool.

Lemma overwrite_keys (k : string) (v : value) (d : dict) :
  dict_keys (overwrite allowed k v d) = dict_keys d.
Proof.
  unfold overwrite. destruct (dict_mem k d) eqn:E; [|reflexivity].
  destruct (allowed k); [now apply dict_keys_set | reflexivity].
Qed.

Lemma overwrite_mem (k k' : string) (v : value) (d : dict) :
  dict_mem k' (overwrite allowed k v d) = dict_mem k' d.
Proof. now rewrite !dict_mem_keys, overwrite_keys. Qed.

Lemma overwrite_get_other (k k' : string) (v : value) (d : dict) :
  String.eqb k' k = false ->
  dict_get k' (overwrite allowed k v d) = dict_get k' d.
Proof.
  intros Hne. unfold overwrite.
  destruct (dict_mem k d && allowed k); [now apply dict_get_set_other | reflexivity].
Qed.

Lemma overwrite_twice (k : string) (v w : value) (d : dict) :
  overwrite allowed k v (overwrite allowed k w d) = overwrite allowed k v d.
Proof.
  unfold overwrite at 1. rewrite overwrite_mem. unfold overwrite.
  destruct (dict_mem k d && allowed k); [apply dict_set_twice | reflexivity].
Qed.

Lemma overwrite_comm (k k' : string) (v w : value) (d : dict) :
  String.eqb k k' = false ->
  overwrite allowed k v (overwrite allowed k' w d)
  = overwrite allowed k' w (overwrite allowed k v d).
Proof.
  intros Hne. unfold overwrite at 1 3. rewrite !overwrite_mem. unfold overwrite.
  destruct (dict_mem k d) eqn:Hk; destruct (allowed k);
    destruct (dict_mem k' d) eqn:Hk'; destruct (allowed k');
    cbn [andb]; try reflexivity.
  now apply dict_set_comm.
Qed.

Lemma overlay_cons (k : string) (v : value) (entries d : dict) :
  overlay allowed ((k, v) :: entries) d
  = overlay allowed entries (overwrite allowed k v d).
Proof. reflexivity. Qed.

Lemma overlay_keys (entries d : dict) :
  dict_keys (overlay allowed entries d) = dict_keys d.
Proof.
  revert d. induction entries as [|[k v] entries IH]; intros d; [reflexivity|].
  now rewrite overlay_cons, IH, overwrite_keys.
Qed.

Lemma overlay_get_unnamed (k : string) (entries d : dict) :
  dict_mem k entries = false ->
  dict_get k (overlay allowed entries d) = dict_get k d.
Proof.
  revert d. induction entries as [|[k0 v0] entries IH]; intros d; [reflexivity|].
  cbn [dict_mem]. destruct (String.eqb k k0) eqn:E; [discriminate|]. intros H.
  now rewrite overlay_cons, IH, overwrite_get_other.
Qed.

(** An earlier write to a name is absorbed by a later write to it. *)
Lemma overlay_absorbs (k : string) (v w : value) (entries d : dict) :
  overwrite allowed k v (overlay allowed entries (overwrite allowed k w d))
  = overwrite allowed k v (overlay allowed entries d).
Proof.
  revert d. induction entries as [|[k0 v0] entries IH]; intros d.
  - apply overwrite_twice.
  - rewrite !overlay_cons.
    destruct (String.eqb k0 k) eqn:E.
    + apply String.eqb_eq in E. subst k0. now rewrite overwrite_twice.
    + now rewrite overwrite_comm, IH.
Qed.

Lemma overlay_snoc (entries : dict) (k : string) (v : value) (d : dict) :
  overlay allowed (entries ++ [(k, v)])%list d
  = overwrite allowed k v (overlay allowed entries d).
Proof. unfold overlay. now rewrite fold_left_app. Qed.

Lemma overlay_idempotent (entries d : dict) :
  overlay allowed entries (overlay allowed entries d) = overlay allowed entries d.
Proof.
  revert d. induction entries as [|[k v] entries IH] using rev_ind; intros d;
    [reflexivity|].
  rewrite !overlay_snoc, overlay_absorbs. now rewrite IH.
Qed.

End OverlayLaws.

Lemma overlay_get_named (allowed : string -> bool) (k : string) (v : value)
    (entries d : dict) :
  NoDup (dict_keys entries) -> In (k, v) entries ->
  dict_mem k d = true -> allowed k = true ->
  dict_get k (overlay allowed entries d) = Some v.
Proof.
  revert d. induction entries as [|[k0 v0] entries IH]; intros d Hnd Hin Hmem Hal;
    [contradiction|].
  cbn [dict_keys map fst] in Hnd. apply NoDup_cons_iff in Hnd as [Hnotin Hnd].
  rewrite overlay_cons. destruct Hin as [[= -> ->]|Hin].
  - rewrite overlay_get_unnamed.
    + unfold overwrite. rewrite Hmem, Hal. apply dict_get_set_same.
    + rewrite dict_mem_keys. apply not_true_is_false. intros H.
      apply existsb_exists in H as (k' & Hk' & E).
      apply String.eqb_eq in E. now subst k'.
  - apply IH; try assumption. now rewrite overwrite_mem.
Qed.

Lemma v6_update_device_spec (k : string) (v : value) (c : controller) :
  V6.update_device k v c
  = (Ok tt, mkController (overwrite any_name k v (device_states c)) (log c)).
Proof.
  unfold V6.update_device. rewrite bind_has_device. unfold overwrite, any_name.
  rewrite andb_true_r. destruct c as [d l]. cbn [device_states log].
  now destruct (dict_mem k d).
Qed.

Lemma merged_update_device_spec (k : string) (v : value) (c : controller) :
  Merged.update_device k v c
  = (Ok tt, mkController (overwrite not_chatbot_message k v (device_states c)) (log c)).
Proof.
  unfold Merged.update_device. rewrite bind_has_device.
  unfold overwrite, not_chatbot_message.
  destruct c as [d l]. cbn [device_states log].
  now destruct (dict_mem k d && negb (String.eqb k "chatbot message")).
Qed.

Lemma for_each_overlay (allowed : string -> bool) (body : string -> value -> M unit)
    (entries : dict) (c : controller) :
  (forall k v c0, body k v c0
     = (Ok tt, mkController (overwrite allowed k v (device_states c0)) (log c0))) ->
  for_each entries body c
  = (Ok tt, mkController (overlay allowed entries (device_states c)) (log c)).
Proof.
  intros Hbody. revert c.
  induction entries as [|[k v] entries IH]; intros c.
  - now destruct c.
  - cbn [for_each]. unfold bind. rewrite Hbody, IH. reflexivity.
Qed.

(** The table after [parse_command] of app_version_6_delay.py. *)
Lemma v6_parse_store (parsed_output : dict) (c : controller) :
  device_states (snd (V6.parse_command parsed_output c))
  = match dict_get_default "device_states" (VDict []) parsed_output with
    | VDict ds => overlay any_name ds (device_states c)
    | _ => device_states c
    end.
Proof.
  unfold V6.parse_command, V6.parse_command_body.
  destruct (dict_get_default "device_states" (VDict []) parsed_output);
    try reflexivity.
  unfold bind at 1. cbn [items ret]. unfold bind at 1.
  now rewrite (for_each_overlay any_name _ _ _ v6_update_device_spec).
Qed.

(** The table after [parse_command] of merged_app.py. *)
Lemma merged_parse_store (parsed_data : value) (c : controller) :
  device_states (snd (Merged.parse_command parsed_data c))
  = match parsed_data with
    | VDict ds => overlay not_chatbot_message ds (device_states c)
    | _ => device_states c
    end.
Proof.
  unfold Merged.parse_command, Merged.parse_json_response.
  destruct parsed_data; try reflexivity.
  unfold bind at 1. cbn [items ret]. unfold bind at 1.
  now rewrite (for_each_overlay not_chatbot_message _ _ _ merged_update_device_spec).
Qed.

(** X1.  In the two on/off variants the merge keeps the list of keys of the
    device table, in the same order, for every document: [parse_command]
    of app_version_6_delay.py and [parse_command] of merged_app.py assign
    only under names already present. *)
Theorem onoff_merge_keeps_keys :
  (forall (parsed_output : dict) (c : controller),
      dict_keys (device_states (snd (V6.parse_command parsed_output c)))
      = dict_keys (device_states c))
  /\ (forall (parsed_data : value) (c : controller),
      dict_keys (device_states (snd (Merged.parse_command parsed_data c)))
      = dict_keys (device_states c)).
Proof.
  split.
  - intros parsed_output c. rewrite v6_parse_store.
    destruct (dict_get_default _ _ _); try reflexivity. apply overlay_keys.
  - intros parsed_data c. rewrite merged_parse_store.
    destruct parsed_data; try reflexivity. apply overlay_keys.
Qed.

(** X2.  What the merge of app_version_6_delay.py stores.  For a document
    whose [device_states] is a dictionary (its keys are distinct, as in
    every Python dictionary), [parse_command] returns a result, every
    registered device the document names holds the document's value
    afterwards, and every device it does not name keeps its entry. *)
Theorem v6_merge_overwrites_named (parsed_output ds : dict) (c : controller) :
  dict_get_default "device_states" (VDict []) parsed_output = VDict ds ->
  NoDup (dict_keys ds) ->
  (exists r, fst (V6.parse_command parsed_output c) = Some r)
  /\ (forall k v, In (k, v) ds -> dict_mem k (device_states c) = true ->
        dict_get k (device_states (snd (V6.parse_command parsed_output c))) = Some v)
  /\ (forall k, dict_mem k ds = false ->
        dict_get k (device_states (snd (V6.parse_command parsed_output c)))
        = dict_get k (device_states c)).
Proof.
  intros Hds Hnd. split; [|split].
  - unfold V6.parse_command, V6.parse_command_body. rewrite Hds.
    unfold bind at 1. cbn [items ret]. unfold bind at 1.
    rewrite (for_each_overlay any_name _ _ _ v6_update_device_spec).
    cbn. eauto.
  - intros k v Hin Hmem. rewrite v6_parse_store, Hds.
    now apply overlay_get_named.
  - intros k Hk. rewrite v6_parse_store, Hds. now apply overlay_get_unnamed.
Qed.

Lemma v6_merge_overwrites_named_witness :
  dict_get "kitchen fan"
    (device_states (snd (V6.parse_command
       (document_v6 (VDict [("kitchen fan", VStr "on"); ("garage", VStr "on")])
          (VInt 0)) V6.init)))
  = Some (VStr "on").
Proof.
  apply (proj1 (proj2 (v6_merge_overwrites_named
           (document_v6 (VDict [("kitchen fan", VStr "on"); ("garage", VStr "on")])
              (VInt 0))
           [("kitchen fan", VStr "on"); ("garage", VStr "on")] V6.init
           eq_refl
           ltac:(repeat constructor; simpl; intuition discriminate)))).
  - now left.
  - reflexivity.
Defined.

(** X3.  Merging the same document twice leaves the table the first merge
    produced, in both on/off variants and for every document (a repeated
    command changes nothing more). *)
Theorem onoff_merge_idempotent :
  (forall (parsed_output : dict) (c : controller),
      device_states (snd (V6.parse_command parsed_output
                            (snd (V6.parse_command parsed_output c))))
      = device_states (snd (V6.parse_command parsed_output c)))
  /\ (forall (parsed_data : value) (c : controller),
      device_states (snd (Merged.parse_command parsed_data
                            (snd (Merged.parse_command parsed_data c))))
      = device_states (snd (Merged.parse_command parsed_data c))).
Proof.
  split.
  - intros parsed_output c. rewrite !v6_parse_store.
    destruct (dict_get_default _ _ _); try reflexivity. apply overlay_idempotent.
  - intros parsed_data c. rewrite !merged_parse_store.
    destruct parsed_data; try reflexivity. apply overlay_idempotent.
Qed.

(** X4.  [parse_command] of merged_app.py on the decoded response.  A
    response that is not a JSON object (a list, a string, a number, null)
    makes [.items()] fail: the function logs the error, returns [None] and
    leaves the table as it was.  For an object (with distinct keys) it
    returns the object itself, every registered device it names other than
    'chatbot message' holds the object's value, every device it does not
    name keeps its entry, and an entry called 'chatbot message' is never
    written. *)
Theorem merged_parse_command_cases :
  (forall (parsed_data : value) (c : controller),
      is_dict parsed_data = false ->
      Merged.parse_command parsed_data c
      = (None, mkController (device_states c)
                 (log c ++ [CommandParsingError AttributeError])))
  /\ (forall (ds : dict) (c : controller),
      NoDup (dict_keys ds) ->
      fst (Merged.parse_command (VDict ds) c) = Some (VDict ds)
      /\ (forall k v, In (k, v) ds -> dict_mem k (device_states c) = true ->
            String.eqb k "chatbot message" = false ->
            dict_get k (device_states (snd (Merged.parse_command (VDict ds) c)))
            = Some v)
      /\ (forall k, dict_mem k ds = false ->
            dict_get k (device_states (snd (Merged.parse_command (VDict ds) c)))
            = dict_get k (device_states c)))
  /\ (forall (parsed_data : value) (c : controller),
      dict_get "chatbot message"
        (device_states (snd (Merged.parse_command parsed_data c)))
      = dict_get "chatbot message" (device_states c)).
Proof.
  split; [|split].
  - intros parsed_data c H. destruct parsed_data; try reflexivity. discriminate H.
  - intros ds c Hnd. split; [|split].
    + unfold Merged.parse_command, Merged.parse_json_response.
      unfold bind at 1. cbn [items ret]. unfold bind at 1.
      now rewrite (for_each_overlay not_chatbot_message _ _ _
                     merged_update_device_spec).
    + intros k v Hin Hmem Hne. rewrite merged_parse_store.
      apply overlay_get_named; try assumption.
      unfold not_chatbot_message. now rewrite Hne.
    + intros k Hk. rewrite merged_parse_store. now apply overlay_get_unnamed.
  - intros parsed_data c. rewrite merged_parse_store.
    destruct parsed_data as [| | | | | |ds]; try reflexivity.
    revert c. induction ds as [|[k v] ds IH]; intros c; [reflexivity|].
    rewrite overlay_cons.
    specialize (IH (mkController
                      (overwrite not_chatbot_message k v (device_states c)) (log c))).
    cbn [device_states] in IH. rewrite IH.
    unfold overwrite, not_chatbot_message.
    destruct (String.eqb k "chatbot message") eqn:E.
    + now rewrite andb_false_r.
    + destruct (dict_mem k (device_states c)); [|reflexivity].
      apply dict_get_set_other. now rewrite String.eqb_sym.
Qed.

Lemma merged_parse_command_cases_witness :
  Merged.parse_command (VList [VStr "room 1 fan"; VStr "on"]) Merged.init
  = (None, mkController Merged.initial_device_states
             [CommandParsingError AttributeError])
  /\ dict_get "room 1 fan"
       (device_states (snd (Merged.parse_command
          (VDict [("room 1 fan", VStr "on"); ("chatbot message", VStr "Done")])
          Merged.init)))
     = Some (VStr "on").
Proof.
  split.
  - apply (proj1 merged_parse_command_cases). reflexivity.
  - apply (proj1 (proj2 (proj1 (proj2 merged_parse_command_cases)
             [("room 1 fan", VStr "on"); ("chatbot message", VStr "Done")]
             Merged.init
             ltac:(repeat constructor; simpl; intuition discriminate)))).
    + now left.
    + reflexivity.
    + reflexivity.
Defined.

(** X5.  The [/voice-command] handler of merged_app.py answers success
    exactly when the decoded response is a non-empty JSON object, and only
    then calls the sender; an empty object is merged without error but
    answered with 'Unable to parse command'; no exception leaves the
    handler.  On success the message is the object's 'chatbot message', or
    'Command processed' when there is none. *)
Theorem merged_handler_answers (parsed_data : value) (c : controller) :
  (forall e, fst (Merged.receive_voice_command parsed_data c) <> Merged.Escaped e)
  /\ ((exists message sent,
         fst (Merged.receive_voice_command parsed_data c)
         = Merged.Answered true message (Some sent))
      <-> exists k v ds, parsed_data = VDict ((k, v) :: ds))
  /\ (forall k v ds, parsed_data = VDict ((k, v) :: ds) ->
        fst (Merged.receive_voice_command parsed_data c)
        = Merged.Answered true
            (dict_get_default "chatbot message" (VStr "Command processed")
               ((k, v) :: ds))
            (Some (Merged.send_device_states
                     (device_states (snd (Merged.parse_command parsed_data c))))))
  /\ (parsed_data = VDict [] ->
        Merged.receive_voice_command parsed_data c
        = (Merged.Answered false (VStr "Unable to parse command") None, c)).
Proof.
  assert (Hd : forall ds, Merged.parse_command (VDict ds) c
                = (Some (VDict ds),
                   mkController (overlay not_chatbot_message ds (device_states c))
                     (log c))).
  { intros ds. unfold Merged.parse_command, Merged.parse_json_response.
    unfold bind at 1. cbn [items ret]. unfold bind at 1.
    now rewrite (for_each_overlay not_chatbot_message _ _ _
                   merged_update_device_spec). }
  split; [|split; [|split]].
  - intros e. unfold Merged.receive_voice_command.
    destruct parsed_data as [| | | | | |ds]; try discriminate.
    rewrite Hd. destruct ds; discriminate.
  - split.
    + intros (message & sent & H). unfold Merged.receive_voice_command in H.
      destruct parsed_data as [| | | | | |ds]; try discriminate H.
      rewrite Hd in H. destruct ds as [|[k v] ds]; [discriminate H|]. eauto.
    + intros (k & v & ds & ->). unfold Merged.receive_voice_command.
      rewrite Hd. cbn. eauto.
  - intros k v ds ->. unfold Merged.receive_voice_command. now rewrite Hd.
  - intros ->. unfold Merged.receive_voice_command. rewrite Hd. cbn.
    now destruct c.
Qed.

Lemma merged_handler_answers_witness :
  fst (Merged.receive_voice_command
         (VDict [("room 1 fan", VStr "on"); ("chatbot message", VStr "Done")])
         Merged.init)
  = Merged.Answered true (VStr "Done")
      (Some (Merged.send_device_states
               (device_states (snd (Merged.parse_command
                  (VDict [("room 1 fan", VStr "on"); ("chatbot message", VStr "Done")])
                  Merged.init))))).
Proof.
  exact (proj1 (proj2 (proj2 (merged_handler_answers
           (VDict [("room 1 fan", VStr "on"); ("chatbot message", VStr "Done")])
           Merged.init)))
         "room 1 fan" (VStr "on") [("chatbot message", VStr "Done")] eq_refl).
Defined.

(* ================================================================== *)
(** ** More on the merge of app_version_7_intensity *)
(* ================================================================== *)

(** [parse_command] changes the table only through the merge. *)
Lemma parse_command_store (parsed_output : dict) (c : controller) :
  device_states (snd (V7.parse_command parsed_output c))
  = device_states (snd (V7.merge parsed_output c)).
Proof.
  unfold V7.parse_command, V7.parse_command_body, bind.
  destruct (V7.merge parsed_output c) as [[[]|e] c']; [|reflexivity].
  unfold V7.build_result. now destruct (int _).
Qed.

Section TouchesOnly.
Variable Q : dict -> Prop.
Variable k : string.
Hypothesis Q_set_field_k : forall field v, preserves Q (set_field k field v).
Hypothesis Q_set_k : forall v d, dict_mem k d = true -> Q d -> Q (dict_set k v d).

Local Ltac keep_k :=
  repeat first
    [ apply preserves_ret
    | apply preserves_lift
    | apply preserves_logging_error
    | apply preserves_get_device
    | apply preserves_get_field
    | apply Q_set_field_k
    | apply preserves_bind; [|intros ?]
    | apply preserves_try_except; [|intros ?]
    | match goal with |- preserves _ (if ?b then _ else _) => destruct b end
    | match goal with |- preserves _ (match ?v with _ => _ end) => destruct v end ].

Lemma update_device_touches_only (state : value) :
  preserves Q (V7.update_device k state).
Proof.
  intros c HQ. unfold V7.update_device. rewrite bind_has_device.
  destruct (dict_mem k (device_states c)) eqn:Hmem; [|exact HQ].
  destruct (V7.is_dimmable k) eqn:Hdim; [|destruct (V7.is_servo k) eqn:Hservo].
  - clear Hmem. revert c HQ.
    match goal with |- forall c, _ -> Q (device_states (snd (?m c))) =>
      change (preserves Q m) end.
    keep_k.
  - clear Hmem. revert c HQ.
    match goal with |- forall c, _ -> Q (device_states (snd (?m c))) =>
      change (preserves Q m) end.
    keep_k.
  - simpl. now apply Q_set_k.
Qed.

Lemma update_intensity_touches_only (intensity : value) :
  preserves Q (V7.update_intensity k intensity).
Proof. unfold V7.update_intensity. keep_k. Qed.

End TouchesOnly.

Lemma set_field_other (dev k field : string) (v : value) (x : option value) :
  String.eqb dev k = false ->
  preserves (fun d => dict_get dev d = x) (set_field k field v).
Proof.
  intros Hne c HQ.
  destruct (set_field_cases k field v c) as [(d & Hget & ->)|(e & ->)]; simpl;
    [|exact HQ].
  now rewrite dict_get_set_other.
Qed.

Lemma dict_mem_false_in (dev k : string) (v : value) (d : dict) :
  dict_mem dev d = false -> In (k, v) d -> String.eqb dev k = false.
Proof.
  induction d as [|[k0 v0] d IH]; [contradiction|].
  cbn [dict_mem]. destruct (String.eqb dev k0) eqn:E; [discriminate|].
  intros H [[= -> ->]|Hin]; [exact E | now apply IH].
Qed.

(** X6.  The merge changes no entry the document does not address.  The
    entry of a device is the same before and after [parse_command] when
    the device is not a key of [device_states], is not a dimmable light
    named in [light_intensity] (an intensity given for any other device is
    ignored), and is not the servo unless both [servo_motor_angle] and
    [servo_motor_direction] are absent or null; this holds whether the
    merge returns or fails. *)
Theorem merge_leaves_unaddressed (parsed_output : dict) (c : controller)
    (dev : string) :
  (forall ds, dict_get_default "device_states" (VDict []) parsed_output = VDict ds ->
              dict_mem dev ds = false) ->
  (V7.is_dimmable dev = false \/
   forall li, dict_get_default "light_intensity" (VDict []) parsed_output = VDict li ->
              dict_mem dev li = false) ->
  (V7.is_servo dev = false \/
   (dict_get_default "servo_motor_angle" VNone parsed_output = VNone /\
    dict_get_default "servo_motor_direction" VNone parsed_output = VNone)) ->
  dict_get dev (device_states (snd (V7.parse_command parsed_output c)))
  = dict_get dev (device_states c).
Proof.
  intros Hds Hli Hservo. rewrite parse_command_store.
  set (Q := fun d => dict_get dev d = dict_get dev (device_states c)).
  assert (Hother : forall k, String.eqb dev k = false ->
            (forall field v, preserves Q (set_field k field v)) /\
            (forall v d, dict_mem k d = true -> Q d -> Q (dict_set k v d))).
  { intros k Hne. split.
    - intros field v. now apply set_field_other.
    - intros v d _ HQ. unfold Q in *. now rewrite dict_get_set_other. }
  assert (H : preserves Q (V7.merge parsed_output)); [|now apply (H c)].
  unfold V7.merge.
  apply preserves_bind_items. intros ds Hget.
  apply preserves_bind.
  { apply preserves_for_each. intros k v Hin.
    destruct (Hother k (dict_mem_false_in _ _ _ _ (Hds ds Hget) Hin)) as [H1 H2].
    now apply update_device_touches_only. }
  intros _. apply preserves_bind_items. intros li Hgetli.
  apply preserves_bind.
  { apply preserves_for_each. intros k v Hin.
    destruct (V7.is_dimmable k) eqn:Hk;
      [|unfold V7.update_intensity; rewrite Hk; apply preserves_ret].
    assert (Hne : String.eqb dev k = false).
    { destruct Hli as [Hdim|Hli].
      - destruct (String.eqb dev k) eqn:E; [|reflexivity].
        apply String.eqb_eq in E. subst k. congruence.
      - exact (dict_mem_false_in _ _ _ _ (Hli li Hgetli) Hin). }
    destruct (Hother k Hne) as [H1 H2].
    now apply update_intensity_touches_only. }
  intros _. destruct Hservo as [Hne|[-> ->]].
  - destruct (Hother "Servo motor" Hne) as [H1 _].
    apply preserves_bind; [|intros _].
    + unfold V7.update_servo_angle.
      destruct (dict_get_default "servo_motor_angle" VNone parsed_output);
        try apply preserves_ret;
        (apply preserves_try_except; [|intros; apply preserves_logging_error]);
        (apply preserves_bind; [apply preserves_lift | intros; apply H1]).
    + unfold V7.update_servo_direction.
      destruct (dict_get_default "servo_motor_direction" VNone parsed_output);
        try apply preserves_ret; apply H1.
  - apply preserves_bind; [apply preserves_ret | intros; apply preserves_ret].
Qed.

Lemma merge_leaves_unaddressed_witness :
  dict_get "room 3 light"
    (device_states (snd (V7.parse_command
       (document (VDict [("TV", VStr "on")]) (VDict [("room 2 light", VInt 40)])
          (VInt 90) (VStr "clock") (VInt 0))
       V7.init)))
  = dict_get "room 3 light" (device_states V7.init).
Proof.
  apply merge_leaves_unaddressed.
  - intros ds [= <-]. reflexivity.
  - right. intros li [= <-]. reflexivity.
  - left. reflexivity.
Defined.

(* ================================================================== *)
(** ** Which documents the merge accepts *)
(* ================================================================== *)

Lemma ready_member (d : dict) (k : string) :
  ready d -> dict_mem k V7.initial_device_states = true -> dict_mem k d = true.
Proof. intros [_ HK] H. now rewrite dict_mem_keys, HK, <- dict_mem_keys. Qed.

Lemma ready_record (d : dict) (k f1 f2 : string) :
  ready d -> dict_mem k d = true ->
  entry_shape k = has_fields f1 f2 ->
  exists dd x1 x2, dict_get k d = Some (VDict dd)
                   /\ dict_get f1 dd = Some x1 /\ dict_get f2 dd = Some x2.
Proof.
  intros [Hs _] Hmem Hshape.
  apply dict_mem_get in Hmem as [x Hx].
  pose proof (table_all_get _ _ _ _ Hs Hx) as H. rewrite Hshape in H.
  destruct x as [| | | | | |dd]; try discriminate H.
  cbn [has_fields] in H. apply andb_prop in H as [H1 H2].
  apply dict_mem_get in H1 as [x1 H1]. apply dict_mem_get in H2 as [x2 H2].
  now exists dd, x1, x2.
Qed.

Lemma shape_of_dimmable (k : string) :
  V7.is_dimmable k = true -> entry_shape k = has_fields "state" "intensity".
Proof. intros H. unfold entry_shape. now rewrite H. Qed.

Lemma shape_of_servo (k : string) :
  V7.is_dimmable k = false -> V7.is_servo k = true ->
  entry_shape k = has_fields "direction" "degrees".
Proof. intros H1 H2. unfold entry_shape. now rewrite H1, H2. Qed.

Lemma ready_set_field (dev field : string) (v : value) :
  preserves ready (set_field dev field v).
Proof.
  intros c [Hs HK]. split.
  - now apply set_field_keeps_shape.
  - now apply set_field_keeps_keys.
Qed.

Lemma ready_set_plain (dev : string) (v : value) (d : dict) :
  dict_mem dev d = true -> V7.is_dimmable dev = false -> V7.is_servo dev = false ->
  ready d -> ready (dict_set dev v d).
Proof.
  intros Hmem Hd Hsv [Hs HK]. split.
  - now apply set_plain_keeps_shape.
  - now apply set_plain_keeps_keys.
Qed.

Lemma ready_reachable (docs : list dict) :
  ready (device_states (V7.run_commands docs V7.init)).
Proof. split; [apply shape_reachable | apply reachable_keys]. Qed.

Lemma update_device_returns (k : string) (v : value) (c : controller) :
  ready (device_states c) -> exists c', V7.update_device k v c = (Ok tt, c').
Proof.
  intros Hr. unfold V7.update_device. rewrite bind_has_device.
  destruct (dict_mem k (device_states c)) eqn:Hmem; [|now exists c].
  destruct (V7.is_dimmable k) eqn:Hdim; [|destruct (V7.is_servo k) eqn:Hservo].
  - destruct (ready_record _ _ _ _ Hr Hmem (shape_of_dimmable k Hdim))
      as (dd & x1 & x2 & Hk & H1 & H2).
    unfold bind at 1. rewrite (get_device_spec _ _ _ Hk). cbn [is_dict].
    destruct v as [| | | | | |st];
      try (rewrite (set_field_spec _ _ _ _ _ Hk); eauto).
    rewrite (update_two_fields k "state" "intensity"
               (fun old => dict_get_default "state" old st)
               (fun old => dict_get_default "intensity" old st)
               dd x1 x2 c Hk H1 H2 eq_refl).
    eauto.
  - destruct v as [| | | | | |st]; try (now exists c).
    destruct (ready_record _ _ _ _ Hr Hmem (shape_of_servo k Hdim Hservo))
      as (dd & x1 & x2 & Hk & H1 & H2).
    rewrite (update_two_fields k "direction" "degrees"
               (fun old => dict_get_default "direction" old st)
               (fun old => dict_get_default "degrees" old st)
               dd x1 x2 c Hk H1 H2 eq_refl).
    eauto.
  - unfold set_device. eauto.
Qed.


Lemma update_intensity_returns (k : string) (v : value) (c : controller) :
  ready (device_states c) ->
  (intensity_accepted k v = true -> exists c', V7.update_intensity k v c = (Ok tt, c'))
  /\ (intensity_accepted k v = false ->
      exists e c', V7.update_intensity k v c = (Raise e, c')).
Proof.
  intros Hr. unfold intensity_accepted.
  destruct (V7.is_dimmable k) eqn:Hdim; cbn [negb orb].
  - destruct (int (V7.strip_percent v)) as [n|e] eqn:Hint.
    + split; [intros _|discriminate].
      assert (Hmem : dict_mem k (device_states c) = true).
      { apply (ready_member _ _ Hr).
        destruct (dimmable_name k Hdim) as [-> | ->]; reflexivity. }
      destruct (ready_record _ _ _ _ Hr Hmem (shape_of_dimmable k Hdim))
        as (dd & _ & _ & Hk & _).
      rewrite (update_intensity_ok _ _ _ _ _ Hdim Hint Hk). eauto.
    + rewrite (update_intensity_rejected _ _ _ _ Hdim Hint).
      split; intros ->; eauto.
  - split; [intros _|discriminate].
    unfold V7.update_intensity. rewrite Hdim. now exists c.
Qed.

Lemma bind_ok {A B} (m : M A) (k : A -> M B) (c c' : controller) (a : A) :
  m c = (Ok a, c') -> bind m k c = k a c'.
Proof. intros H. unfold bind. now rewrite H. Qed.

Lemma bind_raise {A B} (m : M A) (k : A -> M B) (c c' : controller) (e : exn) :
  m c = (Raise e, c') -> bind m k c = (Raise e, c').
Proof. intros H. unfold bind. now rewrite H. Qed.

Lemma for_each_returns (I : dict -> Prop) (body : string -> value -> M unit)
    (l : dict) (c : controller) :
  (forall k v, preserves I (body k v)) ->
  (forall k v c0, In (k, v) l -> I (device_states c0) ->
                  exists c', body k v c0 = (Ok tt, c')) ->
  I (device_states c) ->
  exists c', for_each l body c = (Ok tt, c') /\ I (device_states c').
Proof.
  intros Hkeep Hok. revert c.
  induction l as [|[k v] l IH]; intros c HI; [now exists c|].
  destruct (Hok k v c (or_introl eq_refl) HI) as [c1 H1].
  cbn [for_each]. rewrite (bind_ok _ _ _ _ _ H1).
  apply IH.
  - intros k' v' c0 Hin. apply Hok. now right.
  - pose proof (Hkeep k v c HI) as H. now rewrite H1 in H.
Qed.

Lemma ready_update_device (k : string) (v : value) :
  preserves ready (V7.update_device k v).
Proof.
  apply update_device_keeps; [apply ready_set_field | apply ready_set_plain].
Qed.

Lemma ready_update_intensity (k : string) (v : value) :
  preserves ready (V7.update_intensity k v).
Proof. apply update_intensity_keeps, ready_set_field. Qed.

Lemma for_each_intensity_returns (li : dict) (c : controller) :
  ready (device_states c) ->
  (forallb (fun kv => intensity_accepted (fst kv) (snd kv)) li = true ->
   exists c', for_each li V7.update_intensity c = (Ok tt, c')
              /\ ready (device_states c'))
  /\ (forallb (fun kv => intensity_accepted (fst kv) (snd kv)) li = false ->
      exists e c', for_each li V7.update_intensity c = (Raise e, c')).
Proof.
  revert c. induction li as [|[k v] li IH]; intros c Hr.
  - split; [intros _; now exists c | discriminate].
  - cbn [forallb fst snd for_each].
    destruct (update_intensity_returns k v c Hr) as [Hyes Hno].
    destruct (intensity_accepted k v).
    + destruct (Hyes eq_refl) as [c1 H1]. rewrite (bind_ok _ _ _ _ _ H1).
      apply IH. pose proof (ready_update_intensity k v c Hr) as H.
      now rewrite H1 in H.
    + destruct (Hno eq_refl) as (e & c1 & H1). rewrite (bind_raise _ _ _ _ _ H1).
      split; [discriminate | eauto].
Qed.

Lemma servo_angle_raises (v : value) (e : exn) :
  V7.servo_angle_int v = Raise e -> e = ValueError.
Proof.
  unfold V7.servo_angle_int. destruct (str v); [|now intros [= <-]].
  cbn [int]. destruct (int_of_string _); now intros [= <-].
Qed.

Lemma ready_servo (d : dict) :
  ready d -> exists dd, dict_get "Servo motor" d = Some (VDict dd).
Proof.
  intros Hr.
  assert (Hmem : dict_mem "Servo motor" d = true)
    by (apply (ready_member _ _ Hr); reflexivity).
  destruct (ready_record d "Servo motor" "direction" "degrees" Hr Hmem eq_refl)
    as (dd & _ & _ & H & _).
  eauto.
Qed.

Lemma update_servo_angle_returns (v : value) (c : controller) :
  ready (device_states c) ->
  exists c', V7.update_servo_angle v c = (Ok tt, c') /\ ready (device_states c').
Proof.
  intros Hr. destruct (ready_servo _ Hr) as [dd Hdd].
  destruct (V7.servo_angle_int v) as [n|e] eqn:Hn.
  - rewrite (update_servo_angle_ok _ _ _ _ Hn Hdd). eexists; split; [reflexivity|].
    pose proof (ready_set_field "Servo motor" "degrees" (VInt n) c Hr) as H.
    now rewrite (set_field_spec _ _ _ _ _ Hdd) in H.
  - apply servo_angle_raises in Hn as He. subst e.
    destruct v; try (now exists c);
      (unfold V7.update_servo_angle, try_except, bind, lift; rewrite Hn;
       cbn; eexists; split; [reflexivity | exact Hr]).
Qed.

Lemma update_servo_direction_returns (v : value) (c : controller) :
  ready (device_states c) ->
  exists c', V7.update_servo_direction v c = (Ok tt, c').
Proof.
  intros Hr. destruct (ready_servo _ Hr) as [dd Hdd].
  destruct v; try (now exists c);
    (unfold V7.update_servo_direction; rewrite (set_field_spec _ _ _ _ _ Hdd); eauto).
Qed.

(** The merge on a ready table: it returns when both maps are dictionaries
    and no intensity stops it, and raises otherwise. *)
Lemma merge_returns_or_raises (parsed_output : dict) (c : controller) :
  ready (device_states c) ->
  match dict_get_default "device_states" (VDict []) parsed_output,
        dict_get_default "light_intensity" (VDict []) parsed_output with
  | VDict _, VDict li =>
      if forallb (fun kv => intensity_accepted (fst kv) (snd kv)) li
      then exists c', V7.merge parsed_output c = (Ok tt, c')
      else exists e c', V7.merge parsed_output c = (Raise e, c')
  | _, _ => exists e c', V7.merge parsed_output c = (Raise e, c')
  end.
Proof.
  intros Hr. unfold V7.merge.
  destruct (dict_get_default "device_states" (VDict []) parsed_output)
    as [| | | | | |ds]; try (destruct (dict_get_default "light_intensity" _ _);
                             cbn; eauto; fail).
  cbn [items]. rewrite (bind_ok _ _ c c ds eq_refl).
  destruct (for_each_returns ready V7.update_device ds c ready_update_device
              (fun k v c0 _ H0 => update_device_returns k v c0 H0) Hr)
    as (c1 & H1 & Hr1).
  rewrite (bind_ok _ _ _ _ _ H1).
  destruct (dict_get_default "light_intensity" (VDict []) parsed_output)
    as [| | | | | |li]; try (cbn; eauto; fail).
  cbn [items]. rewrite (bind_ok _ _ c1 c1 li eq_refl).
  destruct (for_each_intensity_returns li c1 Hr1) as [Hyes Hno].
  destruct (forallb _ li).
  - destruct (Hyes eq_refl) as (c2 & H2 & Hr2). rewrite (bind_ok _ _ _ _ _ H2).
    destruct (update_servo_angle_returns
                (dict_get_default "servo_motor_angle" VNone parsed_output) c2 Hr2)
      as (c3 & H3 & Hr3).
    rewrite (bind_ok _ _ _ _ _ H3).
    destruct (update_servo_direction_returns
                (dict_get_default "servo_motor_direction" VNone parsed_output) c3 Hr3)
      as (c4 & H4).
    eauto.
  - destruct (Hno eq_refl) as (e & c2 & H2). rewrite (bind_raise _ _ _ _ _ H2).
    eauto.
Qed.

(** X7.  Which documents [parse_command] accepts.  In every state the
    controller reaches by merges from the constructor's table,
    [parse_command] returns a result (not [None]) exactly when
    [device_states] and [light_intensity] are dictionaries (or absent), no
    value of [light_intensity] for a dimmable light makes [int] raise an
    exception other than [ValueError] and [TypeError], and [int] accepts
    [delay_seconds]; the result then carries that integer delay and the
    table as merged. *)
Theorem command_accepted_iff (docs : list dict) (parsed_output : dict) :
  let c := V7.run_commands docs V7.init in
  ((exists r, fst (V7.parse_command parsed_output c) = Some r)
   <-> accepted parsed_output = true)
  /\ (forall r, fst (V7.parse_command parsed_output c) = Some r ->
        int (dict_get_default "delay_seconds" (VInt 0) parsed_output)
        = Ok (V7.delay_seconds r)
        /\ V7.result_device_states r
           = device_states (snd (V7.parse_command parsed_output c))).
Proof.
  intros c.
  pose proof (merge_returns_or_raises parsed_output c (ready_reachable docs)) as Hm.
  unfold accepted. unfold V7.parse_command, V7.parse_command_body, V7.build_result.
  destruct (dict_get_default "device_states" (VDict []) parsed_output)
    as [| | | | | |ds];
    try (destruct Hm as (e & c' & Hm); rewrite (bind_raise _ _ _ _ _ Hm);
         split; [split; [intros [r H]; discriminate H | discriminate]
                | intros r H; discriminate H]).
  destruct (dict_get_default "light_intensity" (VDict []) parsed_output)
    as [| | | | | |li];
    try (destruct Hm as (e & c' & Hm); rewrite (bind_raise _ _ _ _ _ Hm);
         split; [split; [intros [r H]; discriminate H | discriminate]
                | intros r H; discriminate H]).
  destruct (forallb _ li).
  - destruct Hm as (c' & Hm). rewrite (bind_ok _ _ _ _ _ Hm).
    destruct (int (dict_get_default "delay_seconds" (VInt 0) parsed_output))
      as [n|e]; cbn.
    + split; [split; eauto|]. now intros r [= <-].
    + split; [split; [intros [r H]; discriminate H | discriminate]
             | intros r H; discriminate H].
  - destruct Hm as (e & c' & Hm). rewrite (bind_raise _ _ _ _ _ Hm).
    split; [split; [intros [r H]; discriminate H | discriminate]
           | intros r H; discriminate H].
Qed.

Lemma command_accepted_iff_witness :
  exists r,
    fst (V7.parse_command (intensity_only "room 2 light" (VStr "abc%")) V7.init)
    = Some r.
Proof.
  apply (proj2 (proj1 (command_accepted_iff []
                         (intensity_only "room 2 light" (VStr "abc%"))))).
  reflexivity.
Defined.

(** X8.  A document the merge rejects half-way leaves its first updates in
    the table.  When [device_states] is a dictionary and [light_intensity]
    is not (a string, a number, a list, null), the handler answers with an
    error and starts no sender, yet the table is the one the first loop of
    [parse_command] produced from [device_states].  When [device_states]
    itself is not a dictionary, nothing of the document is applied, valid
    intensity and servo fields included. *)
Theorem rejected_document_partly_applied :
  (forall (parsed_output ds : dict) (c : controller),
      dict_get_default "device_states" (VDict []) parsed_output = VDict ds ->
      is_dict (dict_get_default "light_intensity" (VDict []) parsed_output) = false ->
      fst (V7.receive_voice_command parsed_output c) = (V7.Error, None)
      /\ device_states (snd (V7.receive_voice_command parsed_output c))
         = device_states (snd (for_each ds V7.update_device c)))
  /\ (forall (parsed_output : dict) (c : controller),
      is_dict (dict_get_default "device_states" (VDict []) parsed_output) = false ->
      fst (V7.receive_voice_command parsed_output c) = (V7.Error, None)
      /\ device_states (snd (V7.receive_voice_command parsed_output c))
         = device_states c).
Proof.
  split.
  - intros parsed_output ds c Hds Hli.
    assert (Hm : exists e, V7.merge parsed_output c
                           = (Raise e, snd (for_each ds V7.update_device c))).
    { unfold V7.merge. rewrite Hds. cbn [items].
      rewrite (bind_ok _ _ c c ds eq_refl).
      destruct (for_each ds V7.update_device c) as [[[]|e] c1] eqn:H1.
      - rewrite (bind_ok _ _ _ _ _ H1).
        destruct (dict_get_default "light_intensity" (VDict []) parsed_output);
          try discriminate Hli; cbn; eauto.
      - rewrite (bind_raise _ _ _ _ _ H1). eauto. }
    destruct Hm as [e Hm].
    unfold V7.receive_voice_command, V7.parse_command, V7.parse_command_body.
    rewrite (bind_raise _ _ _ _ _ Hm). split; reflexivity.
  - intros parsed_output c Hds.
    unfold V7.receive_voice_command, V7.parse_command, V7.parse_command_body,
      V7.merge.
    destruct (dict_get_default "device_states" (VDict []) parsed_output);
      try discriminate Hds; split; reflexivity.
Qed.

Lemma rejected_document_partly_applied_witness :
  let doc :=
    document (VDict [("TV", VStr "on")]) (VStr "80") VNone VNone (VInt 0) in
  fst (V7.receive_voice_command doc V7.init) = (V7.Error, None)
  /\ dict_get "TV" (device_states (snd (V7.receive_voice_command doc V7.init)))
     = Some (VStr "on").
Proof.
  intros doc.
  destruct (proj1 rejected_document_partly_applied doc [("TV", VStr "on")] V7.init
              eq_refl eq_refl) as [H1 H2].
  split; [exact H1 | rewrite H2; reflexivity].
Defined.

(* ================================================================== *)
(** ** The send cycle *)
(* ================================================================== *)

Lemma send_row_not_failed (row : list value) (e : exn) :
  Frame.send_row row <> Frame.Failed e.
Proof. unfold Frame.send_row. now destruct (Csv.writerow row). Qed.

Lemma encode_shape_not_failed (dev : string) (state : value) (e : exn) :
  entry_shape dev state = true -> V7.encode dev state <> Frame.Failed e.
Proof.
  intros Hs. unfold V7.encode.
  destruct state as [| | | | | |d]; try apply send_row_not_failed.
  unfold entry_shape in Hs.
  destruct (V7.is_dimmable dev); [|destruct (V7.is_servo dev); [|discriminate]];
    cbn [has_fields] in Hs; apply andb_prop in Hs as [H1 H2];
    apply dict_mem_get in H1 as [x1 H1]; apply dict_mem_get in H2 as [x2 H2];
    unfold subscript; rewrite H1, H2; apply send_row_not_failed.
Qed.

Lemma send_shaped_table (table : dict) (ms : list string) (ok : bool) :
  shape_ok table = true ->
  V7.send_device_states table = Some (ms, ok) ->
  ok = true
  /\ Forall2 (fun kv m => V7.encode (fst kv) (snd kv) = Frame.Sent m) table ms.
Proof.
  revert ms. induction table as [|[dev state] table IH]; intros ms Hs.
  - intros [= <- <-]. split; [reflexivity | constructor].
  - unfold shape_ok, table_all in Hs. cbn [forallb fst snd] in Hs.
    apply andb_prop in Hs as [Hentry Hs].
    cbn [V7.send_device_states].
    destruct (V7.encode dev state) as [m|e|] eqn:E; [| |discriminate].
    + destruct (V7.send_device_states table) as [[ms' ok']|]; [|discriminate].
      intros [= <- <-]. destruct (IH ms' Hs eq_refl) as [-> HF].
      split; [reflexivity | now constructor].
    + now destruct (encode_shape_not_failed dev state e Hentry).
Qed.

(** X9.  Order and completeness of a send cycle after merges.  Whatever
    documents were merged since the constructor, a send cycle does not
    stop on a missing field: when it ends, it returns [True] and has
    written nine messages, the i-th being the frame of the i-th device of
    the constructor's table (room 1 light first, Servo motor last), however
    the documents ordered their keys. *)
Theorem send_after_merges_in_order (docs : list dict) (ms : list string) (ok : bool) :
  let table := device_states (V7.run_commands docs V7.init) in
  V7.send_device_states table = Some (ms, ok) ->
  ok = true
  /\ List.length ms = 9%nat
  /\ map fst table
     = ["room 1 light"; "room 2 light"; "room 3 light"; "room 4 light";
        "kitchen light"; "TV"; "Refrigerator"; "DC motor"; "Servo motor"]
  /\ Forall2 (fun kv m => V7.encode (fst kv) (snd kv) = Frame.Sent m) table ms.
Proof.
  intros table Hsend.
  destruct (send_shaped_table table ms ok (shape_reachable docs) Hsend) as [-> HF].
  assert (HK : map fst table = dict_keys V7.initial_device_states)
    by apply reachable_keys.
  repeat split; try assumption.
  rewrite <- (Forall2_length HF), <- (length_map fst table), HK. reflexivity.
Qed.

Lemma send_after_merges_in_order_witness :
  let docs := [states_only (VDict [("TV", VStr "on"); ("room 1 light", VStr "on")])] in
  exists ms,
    V7.send_device_states (device_states (V7.run_commands docs V7.init))
    = Some (ms, true)
    /\ List.length ms = 9%nat.
Proof.
  intros docs.
  destruct (V7.send_device_states (device_states (V7.run_commands docs V7.init)))
    as [[ms ok]|] eqn:E.
  - destruct (send_after_merges_in_order docs ms ok E) as (-> & HL & _).
    exists ms. split; [reflexivity | exact HL].
  - vm_compute in E. discriminate E.
Defined.

Lemma send_app (t1 t2 : dict) (ms1 : list string) :
  V7.send_device_states t1 = Some (ms1, true) ->
  V7.send_device_states (t1 ++ t2)%list
  = match V7.send_device_states t2 with
    | Some (ms2, ok) => Some ((ms1 ++ ms2)%list, ok)
    | None => None
    end.
Proof.
  revert ms1. induction t1 as [|[dev state] t1 IH]; intros ms1.
  - intros [= <-]. cbn. now destruct (V7.send_device_states t2) as [[]|].
  - cbn [V7.send_device_states app].
    destruct (V7.encode dev state); try discriminate.
    destruct (V7.send_device_states t1) as [[ms ok]|]; [|discriminate].
    intros [= <- ->]. rewrite (IH ms eq_refl).
    now destruct (V7.send_device_states t2) as [[]|].
Qed.

Lemma dict_get_none_mem (k : string) (d : dict) :
  dict_get k d = None <-> dict_mem k d = false.
Proof.
  induction d as [|[k' v'] d IH]; simpl; [tauto|].
  destruct (String.eqb k k'); [split; discriminate | exact IH].
Qed.

(** X10.  A record without one of its fields stops the send cycle.  When
    the entry of a dimmable light has no [state] or no [intensity], or the
    servo's entry no [direction] or no [degrees] (a table set through
    [/command] can be so), the loop body raises [KeyError]; the frames of
    the devices before it have been written, none of the devices after it
    is, and [send_device_states] returns [False]. *)
Theorem send_stops_at_incomplete_record (t1 t2 : dict) (dev : string) (d : dict)
    (ms1 : list string) :
  V7.send_device_states t1 = Some (ms1, true) ->
  (V7.is_dimmable dev = true
   /\ (dict_mem "state" d = false \/ dict_mem "intensity" d = false))
  \/ (dev = "Servo motor"
      /\ (dict_mem "direction" d = false \/ dict_mem "degrees" d = false)) ->
  V7.encode dev (VDict d) = Frame.Failed KeyError
  /\ V7.send_device_states (t1 ++ (dev, VDict d) :: t2)%list = Some (ms1, false).
Proof.
  intros H1 Hmiss.
  assert (He : V7.encode dev (VDict d) = Frame.Failed KeyError).
  { unfold V7.encode, subscript.
    destruct Hmiss as [[Hdim [H|H]]|[-> [H|H]]];
      apply dict_get_none_mem in H;
      try rewrite Hdim;
      try (change (V7.is_dimmable "Servo motor") with false;
           change (V7.is_servo "Servo motor") with true; cbv iota);
      rewrite H; try reflexivity.
    - now destruct (dict_get "state" d).
    - now destruct (dict_get "direction" d). }
  split; [exact He|].
  rewrite (send_app _ _ _ H1). cbn [V7.send_device_states]. rewrite He.
  now rewrite app_nil_r.
Qed.

Lemma send_stops_at_incomplete_record_witness :
  V7.encode "room 2 light" (VDict [("state", VStr "on")]) = Frame.Failed KeyError
  /\ V7.send_device_states
       ([("TV", VStr "on")]
        ++ ("room 2 light", VDict [("state", VStr "on")])
           :: [("DC motor", VStr "off")])%list
     = Some (["STARTTV,onEND" ++ String (chr 10) EmptyString], false).
Proof.
  apply (send_stops_at_incomplete_record [("TV", VStr "on")] [("DC motor", VStr "off")]
           "room 2 light" [("state", VStr "on")]
           ["STARTTV,onEND" ++ String (chr 10) EmptyString]).
  - reflexivity.
  - left. split; [reflexivity | right; reflexivity].
Defined.

(* ================================================================== *)
(** ** Suffixes, the handler and the direct command *)
(* ================================================================== *)

Lemma rstrip_with_app_all (p : ascii -> bool) (s t : string) :
  all_chars p t = true -> rstrip_with p (s ++ t) = rstrip_with p s.
Proof.
  intros Ht. induction s as [|c s IH]; cbn [append].
  - now apply rstrip_with_all.
  - cbn [rstrip_with]. now rewrite IH.
Qed.

(** X11.  Trailing suffix characters do not matter.  A [light_intensity]
    text followed by any number of percent signs is handled exactly like
    the text without them (same table, same log, same outcome), and a
    [servo_motor_angle] text followed by any run of the two characters the
    code strips (the degree sign U+00B0 and U+00C2) is read as the same
    integer, or rejected alike, and gives the same table. *)
Theorem trailing_suffix_ignored :
  (forall (light s t : string) (c : controller),
      all_chars (fun ch => char_in ch [chr 37]) t = true ->
      V7.update_intensity light (VStr (s ++ t)) c
      = V7.update_intensity light (VStr s) c)
  /\ (forall (s t : string) (c : controller),
      all_chars (fun ch => char_in ch V7.angle_suffix_chars) t = true ->
      V7.servo_angle_int (VStr (s ++ t)) = V7.servo_angle_int (VStr s)
      /\ device_states (snd (V7.update_servo_angle (VStr (s ++ t)) c))
         = device_states (snd (V7.update_servo_angle (VStr s) c))).
Proof.
  split.
  - intros light s t c Ht. unfold V7.update_intensity, V7.strip_percent, rstrip.
    now rewrite (rstrip_with_app_all _ s t Ht).
  - intros s t c Ht.
    assert (H : V7.servo_angle_int (VStr (s ++ t)) = V7.servo_angle_int (VStr s)).
    { unfold V7.servo_angle_int, rstrip. cbn [str].
      now rewrite (rstrip_with_app_all _ s t Ht). }
    split; [exact H|].
    unfold V7.update_servo_angle, try_except, bind, lift. rewrite H.
    destruct (V7.servo_angle_int (VStr s)) as [n|e].
    + destruct (set_field_cases "Servo motor" "degrees" (VInt n) c)
        as [(d & _ & ->)|(e & ->)]; [reflexivity|].
      now destruct (is_value_or_type_error e).
    + now destruct (is_value_or_type_error e).
Qed.

Lemma trailing_suffix_ignored_witness :
  V7.update_intensity "room 2 light" (VStr ("75" ++ "%%")) V7.init
  = V7.update_intensity "room 2 light" (VStr "75") V7.init.
Proof. apply (proj1 trailing_suffix_ignored). reflexivity. Defined.






(** X13.  The answer of the [/voice-command] handler in every state reached
    by merges from the constructor's table.  When the document is accepted
    (dictionaries for both maps, no intensity that stops the merge, a delay
    [int] accepts) the handler answers success and starts the sender:
    deferred by the integer delay when it is positive, at once when it is
    zero or negative.  Otherwise it answers with an error and starts
    nothing. *)
Theorem voice_command_outcome (docs : list dict) (parsed_output : dict) :
  let c := V7.run_commands docs V7.init in
  (accepted parsed_output = true ->
   exists n,
     int (dict_get_default "delay_seconds" (VInt 0) parsed_output) = Ok n
     /\ fst (V7.receive_voice_command parsed_output c)
        = (V7.Success, Some (if n >? 0 then V7.Deferred n else V7.Immediate)))
  /\ (accepted parsed_output = false ->
      fst (V7.receive_voice_command parsed_output c) = (V7.Error, None)).
Proof.
  intros c.
  pose proof (merge_returns_or_raises parsed_output c (ready_reachable docs)) as Hm.
  unfold accepted.
  unfold V7.receive_voice_command, V7.parse_command, V7.parse_command_body,
    V7.build_result.
  destruct (dict_get_default "device_states" (VDict []) parsed_output)
    as [| | | | | |ds];
    try (destruct Hm as (e & c' & Hm); rewrite (bind_raise _ _ _ _ _ Hm);
         split; [discriminate | reflexivity]).
  destruct (dict_get_default "light_intensity" (VDict []) parsed_output)
    as [| | | | | |li];
    try (destruct Hm as (e & c' & Hm); rewrite (bind_raise _ _ _ _ _ Hm);
         split; [discriminate | reflexivity]).
  destruct (forallb _ li).
  - destruct Hm as (c' & Hm). rewrite (bind_ok _ _ _ _ _ Hm).
    destruct (int (dict_get_default "delay_seconds" (VInt 0) parsed_output))
      as [n|e]; cbn.
    + split; [intros _; now exists n | discriminate].
    + split; [discriminate | reflexivity].
  - destruct Hm as (e & c' & Hm). rewrite (bind_raise _ _ _ _ _ Hm).
    split; [discriminate | reflexivity].
Qed.

Lemma voice_command_outcome_witness :
  exists n,
    int (dict_get_default "delay_seconds" (VInt 0) (delay_only (VStr "-3"))) = Ok n
    /\ fst (V7.receive_voice_command (delay_only (VStr "-3")) V7.init)
       = (V7.Success, Some (if n >? 0 then V7.Deferred n else V7.Immediate)).
Proof.
  apply (proj1 (voice_command_outcome [] (delay_only (VStr "-3")))). reflexivity.
Defined.

(* ================================================================== *)
(** ** [int(str(n))] *)
(* ================================================================== *)

Lemma digit_of_digit_char (d : Z) :
  0 <= d < 10 -> digit_of (digit_char d) = Some d.
Proof.
  intros H.
  assert (E : d = 0 \/ d = 1 \/ d = 2 \/ d = 3 \/ d = 4 \/ d = 5 \/ d = 6
              \/ d = 7 \/ d = 8 \/ d = 9) by lia.
  repeat (destruct E as [->|E]; [reflexivity|]). subst d. reflexivity.
Qed.

Lemma scan_digits_all (s : string) (acc : Z) (k : nat) :
  all_chars is_digit s = true ->
  scan_digits s acc k = Some (digits_val s acc, (k + String.length s)%nat, EmptyString).
Proof.
  revert acc k. induction s as [|c s IH]; intros acc k.
  - intros _. cbn. now rewrite Nat.add_0_r.
  - cbn [all_chars]. unfold is_digit at 1. intros H.
    apply andb_prop in H as [Hc Hs].
    cbn [scan_digits digits_val String.length].
    destruct (digit_of c) as [d|]; [|discriminate Hc].
    rewrite (IH _ _ Hs). now rewrite Nat.add_succ_r.
Qed.

Lemma digits_val_app (s1 s2 : string) (acc : Z) :
  all_chars is_digit s1 = true ->
  digits_val (s1 ++ s2) acc = digits_val s2 (digits_val s1 acc).
Proof.
  revert acc. induction s1 as [|c s1 IH]; intros acc; [reflexivity|].
  cbn [all_chars]. unfold is_digit at 1. intros H.
  apply andb_prop in H as [Hc Hs].
  cbn [append digits_val].
  destruct (digit_of c); [now apply IH | discriminate Hc].
Qed.

Lemma digits_fuel_app (fuel : nat) (n : Z) (acc : string) :
  digits_fuel fuel n acc = digits_fuel fuel n EmptyString ++ acc.
Proof.
  revert n acc. induction fuel as [|fuel IH]; intros n acc; [reflexivity|].
  cbn [digits_fuel]. destruct (n <? 10); [reflexivity|].
  rewrite IH. rewrite (IH _ (String _ EmptyString)).
  now rewrite append_assoc.
Qed.

Lemma digits_fuel_S (fuel : nat) (n : Z) (acc : string) :
  digits_fuel (S fuel) n acc
  = if n <? 10 then String (digit_char (n mod 10)) acc
    else digits_fuel fuel (n / 10) (String (digit_char (n mod 10)) acc).
Proof. reflexivity. Qed.

Lemma digits_fuel_spec (fuel : nat) (n : Z) (k : nat) :
  0 <= n < 2 ^ Z.of_nat (S fuel) ->
  n < 10 ^ Z.of_nat (S k) ->
  let s := digits_fuel (S fuel) n EmptyString in
  all_chars is_digit s = true
  /\ digits_val s 0 = n
  /\ s <> EmptyString
  /\ (String.length s <= S k)%nat.
Proof.
  revert n k. induction fuel as [|fuel IH]; intros n k Hn Hk.
  - assert (n = 0 \/ n = 1) as [-> | ->] by (cbn in Hn; lia);
      cbn; repeat split; try discriminate; lia.
  - cbn zeta. rewrite digits_fuel_S.
    set (d := n mod 10).
    assert (Hd : 0 <= d < 10) by (apply Z.mod_pos_bound; lia).
    assert (Hdc : digit_of (digit_char d) = Some d) by now apply digit_of_digit_char.
    destruct (n <? 10) eqn:E.
    + apply Z.ltb_lt in E.
      assert (d = n) by (unfold d; apply Z.mod_small; lia).
      cbn [all_chars digits_val String.length]. unfold is_digit. rewrite Hdc.
      repeat split; try discriminate; lia.
    + apply Z.ltb_ge in E.
      destruct k as [|k].
      { exfalso. cbn in Hk. lia. }
      assert (Hq : 0 <= n / 10 < 2 ^ Z.of_nat (S fuel)).
      { split; [apply Z.div_pos; lia|].
        apply Z.div_lt_upper_bound; [lia|].
        replace (Z.of_nat (S (S fuel))) with (Z.succ (Z.of_nat (S fuel))) in Hn by lia.
        rewrite Z.pow_succ_r in Hn by lia. lia. }
      assert (Hqk : n / 10 < 10 ^ Z.of_nat (S k)).
      { apply Z.div_lt_upper_bound; [lia|].
        replace (Z.of_nat (S (S k))) with (Z.succ (Z.of_nat (S k))) in Hk by lia.
        rewrite Z.pow_succ_r in Hk by lia. lia. }
      destruct (IH (n / 10) k Hq Hqk) as (Hall & Hval & Hne & Hlen).
      rewrite digits_fuel_app.
      set (s0 := digits_fuel (S fuel) (n / 10) EmptyString) in *.
      repeat split.
      * rewrite all_chars_app, Hall. cbn [all_chars]. unfold is_digit.
        now rewrite Hdc.
      * rewrite (digits_val_app _ _ _ Hall), Hval. cbn [digits_val].
        rewrite Hdc. unfold d. pose proof (Z.div_mod n 10). lia.
      * destruct s0; [congruence | discriminate].
      * assert (Hl : String.length (s0 ++ String (digit_char d) EmptyString)
                     = S (String.length s0)).
        { clear. induction s0 as [|c s0 IHs]; cbn; [reflexivity | now rewrite IHs]. }
        rewrite Hl. lia.
Qed.

Lemma is_digit_facts (c : ascii) :
  is_digit c = true ->
  is_int_space c = false
  /\ Ascii.eqb c (chr 45) = false
  /\ Ascii.eqb c (chr 43) = false.
Proof.
  unfold is_digit, digit_of. intros H.
  destruct ((48 <=? code c) && (code c <=? 57)) eqn:E; [|discriminate H].
  apply andb_prop in E as [H1 H2]. apply Z.leb_le in H1, H2.
  repeat split.
  - unfold is_int_space.
    repeat (apply orb_false_intro); try (apply Z.eqb_neq; lia).
    apply andb_false_iff. right. apply Z.leb_gt. lia.
  - destruct (Ascii.eqb c (chr 45)) eqn:E; [|reflexivity].
    apply Ascii.eqb_eq in E. subst c. cbn in H1. lia.
  - destruct (Ascii.eqb c (chr 43)) eqn:E; [|reflexivity].
    apply Ascii.eqb_eq in E. subst c. cbn in H1. lia.
Qed.

Lemma scan_unsigned_digits (s : string) :
  all_chars is_digit s = true -> s <> EmptyString ->
  (String.length s <= max_str_digits)%nat ->
  scan_unsigned s = Some (digits_val s 0).
Proof.
  destruct s as [|c s]; [congruence|]. intros Hall _ Hlen.
  cbn [all_chars] in Hall. apply andb_prop in Hall as [Hc Hs].
  unfold is_digit in Hc. unfold scan_unsigned. cbn [digits_val].
  destruct (digit_of c) as [d|]; [|discriminate Hc].
  rewrite (scan_digits_all s d 1 Hs). cbn [lstrip_with].
  cbn [String.length] in Hlen.
  apply Nat.leb_le in Hlen. cbn [Nat.add]. rewrite Hlen. reflexivity.
Qed.

Lemma int_of_string_digits (s : string) :
  all_chars is_digit s = true -> s <> EmptyString ->
  (String.length s <= max_str_digits)%nat ->
  int_of_string s = Some (digits_val s 0)
  /\ int_of_string (String (chr 45) s) = Some (- digits_val s 0).
Proof.
  intros Hall Hne Hlen.
  pose proof (scan_unsigned_digits s Hall Hne Hlen) as Hscan.
  split.
  - destruct s as [|c s]; [congruence|].
    cbn [all_chars] in Hall. apply andb_prop in Hall as [Hc _].
    destruct (is_digit_facts c Hc) as (Hsp & Hminus & Hplus).
    unfold int_of_string. cbn [lstrip_with]. now rewrite Hsp, Hminus, Hplus.
  - unfold int_of_string. cbn [lstrip_with].
    change (is_int_space (chr 45)) with false. cbv iota.
    rewrite Ascii.eqb_refl, Hscan. reflexivity.
Qed.

Lemma rstrip_with_clean (p : ascii -> bool) (s : string) :
  last_fails p s = true -> rstrip_with p s = s.
Proof.
  induction s as [|c s IH]; [reflexivity|].
  intros H. destruct s as [|c' s'].
  - simpl in *. apply negb_true_iff in H. now rewrite H.
  - change (last_fails p (String c (String c' s')))
      with (last_fails p (String c' s')) in H.
    change (rstrip_with p (String c (String c' s')))
      with (match rstrip_with p (String c' s') with
            | EmptyString => if p c then EmptyString else String c EmptyString
            | r => String c r
            end).
    now rewrite (IH H).
Qed.

Lemma int_of_string_of_int (n : Z) :
  Z.abs n < 10 ^ Z.of_nat max_str_digits ->
  int_of_string (string_of_int n) = Some n.
Proof.
  intros Hn. unfold string_of_int.
  set (m := Z.abs n) in *.
  assert (Hfuel : 0 <= m < 2 ^ Z.of_nat (S (Z.to_nat (Z.log2 m)))).
  { split; [unfold m; lia|].
    rewrite Nat2Z.inj_succ, Z2Nat.id by apply Z.log2_nonneg.
    destruct (Z.eq_dec m 0) as [->|Hm]; [reflexivity|].
    apply Z.log2_spec. unfold m in *. lia. }
  change max_str_digits with (S (Nat.pred max_str_digits)) in Hn.
  destruct (digits_fuel_spec _ m _ Hfuel Hn) as (Hall & Hval & Hne & Hlen).
  destruct (int_of_string_digits _ Hall Hne Hlen) as [Hpos Hneg].
  destruct (n <? 0) eqn:E.
  - rewrite Hneg, Hval. apply Z.ltb_lt in E. f_equal. unfold m. lia.
  - rewrite Hpos, Hval. apply Z.ltb_ge in E. f_equal. unfold m. lia.
Qed.

Lemma string_of_int_keeps_suffix (n : Z) :
  rstrip V7.angle_suffix_chars (string_of_int n) = string_of_int n.
Proof.
  apply rstrip_with_clean, all_chars_last_fails.
  apply (all_chars_impl is_int_char); [|apply string_of_int_chars].
  intros c H. unfold char_in, V7.angle_suffix_chars. cbn [existsb].
  now rewrite !(fun k Hk => int_char_not c k Hk H) by reflexivity.
Qed.

(** X14.  An integer is read back from its own text: [int(str(n))] is [n]
    for every integer whose decimal text stays within the interpreter's
    digit limit.  Hence a [servo_motor_angle] given as a JSON integer,
    negative or above 180 included, is stored as that very integer by the
    merge. *)
Theorem integer_angle_stored_exactly (n : Z) :
  Z.abs n < 10 ^ Z.of_nat max_str_digits ->
  int_of_string (string_of_int n) = Some n
  /\ V7.servo_angle_int (VInt n) = Ok n
  /\ (forall (d : dict) (c : controller),
        dict_get "Servo motor" (device_states c) = Some (VDict d) ->
        device_states (snd (V7.parse_command (angle_only (VInt n)) c))
        = dict_set "Servo motor" (VDict (dict_set "degrees" (VInt n) d))
            (device_states c)).
Proof.
  intros Hn.
  pose proof (int_of_string_of_int n Hn) as Hrt.
  assert (Hangle : V7.servo_angle_int (VInt n) = Ok n).
  { unfold V7.servo_angle_int. cbn [str].
    rewrite string_of_int_keeps_suffix. cbn [int]. now rewrite Hrt. }
  repeat split; try assumption.
  intros d c Hdev. rewrite parse_angle_only.
  now rewrite (update_servo_angle_ok _ _ _ _ Hangle Hdev).
Qed.

Lemma integer_angle_stored_exactly_witness :
  int_of_string (string_of_int (-45)) = Some (-45)
  /\ V7.servo_angle_int (VInt (-45)) = Ok (-45).
Proof.
  destruct (integer_angle_stored_exactly (-45)) as (H1 & H2 & _).
  - vm_compute. reflexivity.
  - split; assumption.
Defined.

(* ================================================================== *)
(** ** More on app_version_6_delay *)
(* ================================================================== *)

(** X15.  The three outcomes of the [/voice-command] handler of
    app_version_6_delay.py.  When [device_states] is not a dictionary the
    handler answers with an error and the table is untouched.  When it is
    one, the table is updated first; then the handler answers success and
    starts the sender (deferred by the integer delay when positive, at once
    otherwise) if [int] accepts the delay, and lets the exception of [int]
    escape, with the table already updated, if it does not. *)
Theorem v6_voice_command_outcome (parsed_output : dict) (c : controller) :
  (is_dict (dict_get_default "device_states" (VDict []) parsed_output) = false ->
   V6.receive_voice_command parsed_output c
   = (V6.Responded false None,
      mkController (device_states c) (log c ++ [CommandParsingError AttributeError])))
  /\ (forall ds,
      dict_get_default "device_states" (VDict []) parsed_output = VDict ds ->
      V6.receive_voice_command parsed_output c
      = (match int (dict_get_default "delay_seconds" (VInt 0) parsed_output) with
         | Ok n => V6.Responded true
                     (Some (if n >? 0 then V6.Deferred n else V6.Immediate))
         | Raise e => V6.Escaped e
         end,
         mkController (overlay any_name ds (device_states c)) (log c))).
Proof.
  split.
  - intros H. unfold V6.receive_voice_command, V6.parse_command, V6.parse_command_body.
    destruct (dict_get_default "device_states" (VDict []) parsed_output);
      try reflexivity. discriminate H.
  - intros ds Hds.
    unfold V6.receive_voice_command, V6.parse_command, V6.parse_command_body.
    rewrite Hds. cbn [items]. rewrite (bind_ok _ _ c c ds eq_refl).
    rewrite (bind_ok _ _ _ _ _
               (for_each_overlay any_name _ ds c v6_update_device_spec)).
    cbn [ret V6.delay_seconds].
    now destruct (int (dict_get_default "delay_seconds" (VInt 0) parsed_output)).
Qed.

Lemma v6_voice_command_outcome_witness :
  V6.receive_voice_command
    (document_v6 (VDict [("kitchen fan", VStr "on")]) (VStr "soon")) V6.init
  = (V6.Escaped ValueError,
     mkController
       (overlay any_name [("kitchen fan", VStr "on")] V6.initial_device_states) []).
Proof.
  exact (proj2 (v6_voice_command_outcome
                  (document_v6 (VDict [("kitchen fan", VStr "on")]) (VStr "soon"))
                  V6.init)
           [("kitchen fan", VStr "on")] eq_refl).
Defined.



(* ================================================================== *)
(** ** The intensity map against the per-device map *)
(* ================================================================== *)

Lemma servo_angle_other (dev : string) (x : option value) (a : value) :
  String.eqb dev "Servo motor" = false ->
  preserves (fun d => dict_get dev d = x) (V7.update_servo_angle a).
Proof.
  intros Hne. unfold V7.update_servo_angle.
  destruct a; try apply preserves_ret;
    (apply preserves_try_except; [|intros; apply preserves_logging_error]);
    (apply preserves_bind; [apply preserves_lift | intros; now apply set_field_other]).
Qed.

Lemma servo_direction_other (dev : string) (x : option value) (v : value) :
  String.eqb dev "Servo motor" = false ->
  preserves (fun d => dict_get dev d = x) (V7.update_servo_direction v).
Proof.
  intros Hne. unfold V7.update_servo_direction.
  destruct v; try apply preserves_ret; now apply set_field_other.
Qed.

(** X17.  The intensity map has the last word on a dimmable light.  In
    every state reached by merges from the constructor's table, when the
    document's [light_intensity] gives the light a value that [int] reads
    as [n] (and no intensity of the map stops the merge), the light ends
    with intensity [n] and with state "on" for [n > 0], "off" otherwise,
    whatever [device_states] said about the same light in the same
    document. *)
Theorem intensity_map_has_last_word (docs : list dict)
    (parsed_output ds l1 l2 : dict) (light : string) (v : value) (n : Z) :
  let c := V7.run_commands docs V7.init in
  dict_get_default "device_states" (VDict []) parsed_output = VDict ds ->
  dict_get_default "light_intensity" (VDict []) parsed_output
  = VDict (l1 ++ (light, v) :: l2)%list ->
  dict_mem light l2 = false ->
  forallb (fun kv => intensity_accepted (fst kv) (snd kv))
    (l1 ++ (light, v) :: l2)%list = true ->
  V7.is_dimmable light = true ->
  int (V7.strip_percent v) = Ok n ->
  exists d',
    dict_get light (device_states (snd (V7.parse_command parsed_output c)))
    = Some (VDict d')
    /\ dict_get "intensity" d' = Some (VInt n)
    /\ dict_get "state" d' = Some (VStr (if n >? 0 then "on" else "off")).
Proof.
  intros c Hds Hli Hl2 Hacc Hdim Hint.
  rewrite forallb_app in Hacc. apply andb_prop in Hacc as [Hacc1 Hacc2].
  cbn [forallb] in Hacc2. apply andb_prop in Hacc2 as [_ Hacc2].
  assert (Hr : ready (device_states c)) by apply ready_reachable.
  assert (Hnot_servo : String.eqb light "Servo motor" = false)
    by (destruct (dimmable_name light Hdim) as [-> | ->]; reflexivity).
  (* the first loop *)
  destruct (for_each_returns ready V7.update_device ds c ready_update_device
              (fun k x c0 _ H0 => update_device_returns k x c0 H0) Hr)
    as (c1 & H1 & Hr1).
  (* the entries of the map before the light *)
  destruct (proj1 (for_each_intensity_returns l1 c1 Hr1) Hacc1) as (c2 & H2 & Hr2).
  (* the light itself *)
  assert (Hmem : dict_mem light (device_states c2) = true).
  { apply (ready_member _ _ Hr2).
    destruct (dimmable_name light Hdim) as [-> | ->]; reflexivity. }
  destruct (ready_record _ _ _ _ Hr2 Hmem (shape_of_dimmable light Hdim))
    as (d2 & _ & _ & Hd2 & _).
  pose proof (update_intensity_ok light v n d2 c2 Hdim Hint Hd2) as H3.
  set (rec := VDict (dict_set "state" (VStr (if n >? 0 then "on" else "off"))
                       (dict_set "intensity" (VInt n) d2))) in *.
  set (c3 := mkController (dict_set light rec (device_states c2)) (log c2)) in *.
  assert (Hr3 : ready (device_states c3)).
  { pose proof (ready_update_intensity light v c2 Hr2) as H. now rewrite H3 in H. }
  set (Q := fun d => dict_get light d = Some rec).
  assert (HQ3 : Q (device_states c3)) by apply dict_get_set_same.
  (* the entries after the light *)
  destruct (proj1 (for_each_intensity_returns l2 c3 Hr3) Hacc2) as (c4 & H4 & Hr4).
  assert (HQ4 : Q (device_states c4)).
  { assert (H : preserves Q (for_each l2 V7.update_intensity)).
    { apply preserves_for_each. intros k x Hin.
      pose proof (dict_mem_false_in _ _ _ _ Hl2 Hin) as Hne.
      apply update_intensity_touches_only. intros. now apply set_field_other. }
    specialize (H c3 HQ3). now rewrite H4 in H. }
  (* the servo *)
  destruct (update_servo_angle_returns
              (dict_get_default "servo_motor_angle" VNone parsed_output) c4 Hr4)
    as (c5 & H5 & Hr5).
  assert (HQ5 : Q (device_states c5)).
  { pose proof (servo_angle_other light (Some rec)
                  (dict_get_default "servo_motor_angle" VNone parsed_output)
                  Hnot_servo c4 HQ4) as H.
    now rewrite H5 in H. }
  destruct (update_servo_direction_returns
              (dict_get_default "servo_motor_direction" VNone parsed_output) c5 Hr5)
    as (c6 & H6).
  assert (HQ6 : Q (device_states c6)).
  { pose proof (servo_direction_other light (Some rec)
                  (dict_get_default "servo_motor_direction" VNone parsed_output)
                  Hnot_servo c5 HQ5) as H.
    now rewrite H6 in H. }
  (* the whole merge *)
  assert (Hmerge : V7.merge parsed_output c = (Ok tt, c6)).
  { unfold V7.merge. rewrite Hds, Hli. cbn [items].
    rewrite (bind_ok _ _ c c ds eq_refl), (bind_ok _ _ _ _ _ H1).
    rewrite (bind_ok _ _ c1 c1 (l1 ++ (light, v) :: l2)%list eq_refl).
    assert (Hloop : for_each (l1 ++ (light, v) :: l2)%list V7.update_intensity c1
                    = (Ok tt, c4)).
    { rewrite for_each_app, H2. cbn [for_each].
      now rewrite (bind_ok _ _ _ _ _ H3). }
    rewrite (bind_ok _ _ _ _ _ Hloop), (bind_ok _ _ _ _ _ H5). exact H6. }
  rewrite parse_command_store, Hmerge. cbn [snd].
  exists (dict_set "state" (VStr (if n >? 0 then "on" else "off"))
            (dict_set "intensity" (VInt n) d2)).
  split; [exact HQ6|]. split.
  - rewrite dict_get_set_other by reflexivity. apply dict_get_set_same.
  - apply dict_get_set_same.
Qed.

Lemma intensity_map_has_last_word_witness :
  exists d',
    dict_get "room 2 light"
      (device_states (snd (V7.parse_command
         (document
            (VDict [("room 2 light",
                     VDict [("state", VStr "off"); ("intensity", VInt 10)])])
            (VDict [("room 2 light", VStr "60%")]) VNone VNone (VInt 0))
         V7.init)))
    = Some (VDict d')
    /\ dict_get "intensity" d' = Some (VInt 60)
    /\ dict_get "state" d' = Some (VStr "on").
Proof.
  apply (intensity_map_has_last_word []
           (document
              (VDict [("room 2 light",
                       VDict [("state", VStr "off"); ("intensity", VInt 10)])])
              (VDict [("room 2 light", VStr "60%")]) VNone VNone (VInt 0))
           [("room 2 light", VDict [("state", VStr "off"); ("intensity", VInt 10)])]
           [] [] "room 2 light" (VStr "60%") 60);
    reflexivity.
Defined.
